(** * PlanDialog.js: the plan-editing dialog of the WeVote admin pages

    A shallow embedding of [apis_v1/static/js/PlanDialog.js] and the
    properties of its three algorithms: field validation, the
    dollars-to-cents conversion, and the roll-up of older plan versions in
    the rendered table.

    Conventions of the embedding.
    - A JavaScript string is a [string]; [String.length] stands for the
      [.length] property (one character per code unit).
    - JavaScript integers that index strings are [Z] ([indexOf] answers -1).
    - A JavaScript value that may be a string or a number is a [JsValue];
      numbers are IEEE doubles ([float]).
    - A [TypeError] raised by reading a property of [undefined] is the
      answer [None] (or the outcome [Thrown]) of the function that raises it.
    - The object literal used as a map in the roll-up handler is a
      [gmap string bool] together with the names it inherits from
      [Object.prototype]. *)

From Stdlib Require Import ZArith Ascii PrimFloat DecimalString Lia.
From stdpp Require Import gmap strings list.

Local Open Scope Z_scope.

(** ** JavaScript values *)

Inductive JsValue : Type :=
  | VUndefined
  | VString (s : string)
  | VNumber (n : float).

(** [Number.isNaN(v)]: no coercion, true only for the number NaN. *)
Definition Number_isNaN (v : JsValue) : bool :=
  match v with
  | VNumber n => PrimFloat.is_nan n
  | _ => false
  end.

(** Truthiness of a value, as [if (v)] tests it. *)
Definition truthy (v : JsValue) : bool :=
  match v with
  | VUndefined => false
  | VString s => negb (String.length s =? 0)%nat
  | VNumber n => negb (PrimFloat.is_nan n || PrimFloat.is_zero n)
  end.

(** ** String primitives of the JavaScript runtime *)

Module Js.

Definition len (s : string) : Z := Z.of_nat (String.length s).

(** [s.startsWith(p)] *)
Fixpoint startsWith (p s : string) : bool :=
  match p, s with
  | EmptyString, _ => true
  | String a p', String b s' => Ascii.eqb a b && startsWith p' s'
  | String _ _, EmptyString => false
  end.

(** [s.indexOf(needle)]: the first position where [needle] occurs, or -1. *)
Fixpoint indexOf (needle s : string) : Z :=
  if startsWith needle s then 0
  else match s with
       | EmptyString => -1
       | String _ s' =>
           let r := indexOf needle s' in
           if r <? 0 then -1 else r + 1
       end.

(** [s.includes(needle)] *)
Fixpoint includes (needle s : string) : bool :=
  startsWith needle s ||
  match s with
  | EmptyString => false
  | String _ s' => includes needle s'
  end.

(** [s.lastIndexOf(needle)]: the last position where [needle] occurs,
    or -1. *)
Fixpoint lastIndexOf (needle s : string) : Z :=
  match s with
  | EmptyString => if startsWith needle s then 0 else -1
  | String _ s' =>
      let r := lastIndexOf needle s' in
      if 0 <=? r then r + 1
      else if startsWith needle s then 0 else -1
  end.

(** The characters of [s] from position [n] on. *)
Fixpoint drop (n : nat) (s : string) : string :=
  match n, s with
  | O, _ => s
  | S _, EmptyString => EmptyString
  | S n', String _ s' => drop n' s'
  end.

(** The first [n] characters of [s]. *)
Fixpoint take (n : nat) (s : string) : string :=
  match n, s with
  | O, _ => EmptyString
  | S _, EmptyString => EmptyString
  | S n', String c s' => String c (take n' s')
  end.

(** An index argument of [slice]: a negative one counts from the end, and
    the result is kept within [0 .. length]. *)
Definition sliceIndex (s : string) (i : Z) : Z :=
  if i <? 0 then Z.max (len s + i) 0 else Z.min i (len s).

(** [s.slice(start, end)] *)
Definition sliceRange (s : string) (start end_ : Z) : string :=
  let from := sliceIndex s start in
  let to := sliceIndex s end_ in
  take (Z.to_nat (to - from)) (drop (Z.to_nat from) s).

(** [s.slice(start)]: up to the end of [s]. *)
Definition slice (s : string) (start : Z) : string :=
  sliceRange s start (len s).

(** [s.substring(indexStart, indexEnd)]: both indices are clamped to
    [0 .. length] and swapped when out of order. *)
Definition substring (s : string) (indexStart indexEnd : Z) : string :=
  let a := Z.min (Z.max indexStart 0) (len s) in
  let b := Z.min (Z.max indexEnd 0) (len s) in
  let from := Z.min a b in
  let to := Z.max a b in
  take (Z.to_nat (to - from)) (drop (Z.to_nat from) s).

(** [s.split(sep)] for a separator of one character: the first part and
    the parts after it. *)
Fixpoint splitParts (sep : ascii) (s : string) : string * list string :=
  match s with
  | EmptyString => (EmptyString, [])
  | String c s' =>
      let '(hd, tl) := splitParts sep s' in
      if Ascii.eqb c sep then (EmptyString, hd :: tl) else (String c hd, tl)
  end.

Definition split (sep : ascii) (s : string) : list string :=
  let '(hd, tl) := splitParts sep s in hd :: tl.

(** Whether a character occurs in a string. *)
Fixpoint hasChar (c : ascii) (s : string) : bool :=
  match s with
  | EmptyString => false
  | String a s' => Ascii.eqb a c || hasChar c s'
  end.

End Js.

(** ** The currency normalizer *)

(** [dollarsToCents(cost)], lines 107-127.  [money[1]] of an array with one
    element is [undefined], and reading its [length] raises: that is the
    answer [None]. *)
Definition dollarsToCents (cost : string) : option string :=
  let costString := cost +:+ "" in
  if Js.len costString =? 0 then Some ""
  else if 0 <=? Js.indexOf "." costString then
    let money := Js.split "."%char costString in
    match money !! 0%nat, money !! 1%nat with
    | Some dollars, Some cents =>
        if 2 <? Js.len cents then Some (dollars +:+ Js.substring cents 0 2)
        else if Js.len cents =? 0 then Some (dollars +:+ "00")
        else if Js.len cents =? 1 then Some (dollars +:+ cents +:+ "0")
        else if Js.len cents =? 2 then Some (dollars +:+ cents)
        else Some (cost +:+ "00")
    | _, _ => None
    end
  else Some (cost +:+ "00").

(** ** Regular expressions

    The one pattern of the file, [/^([0-9]{2}\/[0-9]{2}\/[0-9]{4})+$/], is
    built from character ranges, literal characters, sequencing, a counted
    repetition and [+].  [^] and [$] (without the [m] flag) anchor the match
    at both ends of the input, so [regexp.test(s)] is a match of the whole
    of [s]; it is decided by derivatives. *)

Module Regexp.

Inductive regexp : Type :=
  | Void
  | Eps
  | Chr (c : ascii)
  | Range (lo hi : ascii)
  | Seq (r1 r2 : regexp)
  | Alt (r1 r2 : regexp)
  | Star (r : regexp).

(** [r{n}] *)
Fixpoint times (n : nat) (r : regexp) : regexp :=
  match n with
  | O => Eps
  | S n' => Seq r (times n' r)
  end.

(** [r+] *)
Definition plus (r : regexp) : regexp := Seq r (Star r).

Definition inRange (lo hi c : ascii) : bool :=
  (N_of_ascii lo <=? N_of_ascii c)%N && (N_of_ascii c <=? N_of_ascii hi)%N.

Fixpoint nullable (r : regexp) : bool :=
  match r with
  | Void => false
  | Eps => true
  | Chr _ => false
  | Range _ _ => false
  | Seq r1 r2 => nullable r1 && nullable r2
  | Alt r1 r2 => nullable r1 || nullable r2
  | Star _ => true
  end.

Fixpoint deriv (c : ascii) (r : regexp) : regexp :=
  match r with
  | Void => Void
  | Eps => Void
  | Chr a => if Ascii.eqb a c then Eps else Void
  | Range lo hi => if inRange lo hi c then Eps else Void
  | Seq r1 r2 =>
      if nullable r1 then Alt (Seq (deriv c r1) r2) (deriv c r2)
      else Seq (deriv c r1) r2
  | Alt r1 r2 => Alt (deriv c r1) (deriv c r2)
  | Star r1 => Seq (deriv c r1) (Star r1)
  end.

Fixpoint matches (r : regexp) (s : string) : bool :=
  match s with
  | EmptyString => nullable r
  | String c s' => matches (deriv c r) s'
  end.

(** [/^r$/.test(s)] *)
Definition test (r : regexp) (s : string) : bool := matches r s.

(** The strings a pattern stands for. *)
Inductive lang : regexp -> string -> Prop :=
  | lang_eps : lang Eps ""
  | lang_chr c : lang (Chr c) (String c "")
  | lang_range lo hi c :
      inRange lo hi c = true -> lang (Range lo hi) (String c "")
  | lang_seq r1 r2 s1 s2 :
      lang r1 s1 -> lang r2 s2 -> lang (Seq r1 r2) (s1 +:+ s2)
  | lang_alt_l r1 r2 s : lang r1 s -> lang (Alt r1 r2) s
  | lang_alt_r r1 r2 s : lang r2 s -> lang (Alt r1 r2) s
  | lang_star_nil r : lang (Star r) ""
  | lang_star_cons r s1 s2 :
      lang r s1 -> lang (Star r) s2 -> lang (Star r) (s1 +:+ s2).

End Regexp.

(** [[0-9]{2}\/[0-9]{2}\/[0-9]{4}]: the group of the date pattern. *)
Definition dateGroup : Regexp.regexp :=
  let digit := Regexp.Range "0" "9" in
  let slash := Regexp.Chr "/" in
  Regexp.Seq (Regexp.times 2 digit)
    (Regexp.Seq slash
       (Regexp.Seq (Regexp.times 2 digit)
          (Regexp.Seq slash (Regexp.times 4 digit)))).

(** [/^([0-9]{2}\/[0-9]{2}\/[0-9]{4})+$/], line 138. *)
Definition datePattern : Regexp.regexp := Regexp.plus dateGroup.

(** ** The page: form fields, tips, requests *)

(** The fields of the dialog, lines 4-14. *)
Inductive Field : Type :=
  | idfld
  | couponCode
  | planTypeEnum
  | hiddenPlanComment
  | couponAppliedMessage
  | listPriceMonthlyCredit
  | discountedPriceMonthlyCredit
  | redemptions
  | featuresProvidedBitmap
  | planCreatedAt
  | couponExpiresDate.

Global Instance Field_eq_dec : EqDecision Field.
Proof. solve_decision. Defined.

(** [allFields], lines 15-16. *)
Definition allFields : list Field :=
  [idfld; couponCode; planTypeEnum; hiddenPlanComment; couponAppliedMessage;
   listPriceMonthlyCredit; discountedPriceMonthlyCredit; redemptions;
   featuresProvidedBitmap; planCreatedAt; couponExpiresDate].

(** The object sent to [createNewPlan], lines 146-155. *)
Module NewPlanData.
Record t : Type := make {
  couponCode : string;
  planTypeEnum : string;
  couponAppliedMessage : string;
  hiddenPlanComment : string;
  listPriceMonthlyCredit : string;
  discountedPriceMonthlyCredit : string;
  featuresProvidedBitmap : string;
  couponExpiresDate : string
}.
End NewPlanData.

(** A call of [$.getJSON(url, data, ...)]. *)
Inductive Request : Type :=
  | GetJSON (url : string) (data : NewPlanData.t).

(** What the handlers of the dialog read and write: the value of each
    field, whether it carries the class [ui-state-error], the tips
    paragraph, the timers set, the requests issued so far, and
    [window.location.origin]. *)
Record Page : Type := mkPage {
  value : Field -> string;
  hasError : Field -> bool;
  tipsText : string;
  tipsHighlight : bool;
  timeouts : list Z;
  requests : list Request;
  origin : string
}.

(** How a call ends: with a value, or with a [TypeError]. *)
Inductive completion (A : Type) : Type :=
  | Returned (a : A)
  | Thrown.
Arguments Returned {A} a.
Arguments Thrown {A}.

(** [o.val()] of a text field: always a string. *)
Definition val (p : Page) (o : Field) : JsValue := VString (value p o).

(** [o.addClass('ui-state-error')] *)
Definition addClass (o : Field) (p : Page) : Page :=
  mkPage (value p)
         (fun f => if decide (f = o) then true else hasError p f)
         (tipsText p) (tipsHighlight p) (timeouts p) (requests p) (origin p).

(** [os.removeClass('ui-state-error')] *)
Definition removeClass (os : list Field) (p : Page) : Page :=
  mkPage (value p)
         (fun f => if decide (f ∈ os) then false else hasError p f)
         (tipsText p) (tipsHighlight p) (timeouts p) (requests p) (origin p).

(** [updateTips(t)], lines 68-75: the text is replaced, the highlight class
    added, and a timer of 500 ms set that will remove the highlight. *)
Definition updateTips (t : string) (p : Page) : Page :=
  mkPage (value p) (hasError p) t true (timeouts p ++ [500]) (requests p)
         (origin p).

(** [$.getJSON(url, data, ...)]: the request is issued; its callbacks run
    later, outside the pass. *)
Definition getJSON (url : string) (data : NewPlanData.t) (p : Page) : Page :=
  mkPage (value p) (hasError p) (tipsText p) (tipsHighlight p) (timeouts p)
         (requests p ++ [GetJSON url data]) (origin p).

(** A number inside a template literal. *)
Definition numberToString (z : Z) : string :=
  NilZero.string_of_int (Z.to_int z).

Definition lengthMessage (n : string) (min max : Z) : string :=
  "Length of " +:+ n +:+ " must be between " +:+ numberToString min
    +:+ " and " +:+ numberToString max +:+ ".".

Definition numberMessage (n : string) : string := n +:+ " must be a number.".

Definition dateMessage : string :=
  "Expiration date must use this format: 12/25/2022".

(** [checkLength(o, n, min, max)], lines 77-85. *)
Definition checkLength (o : Field) (n : string) (min max : Z) (p : Page)
  : bool * Page :=
  if (max <? Js.len (value p o)) || (Js.len (value p o) <? min) then
    (false, updateTips (lengthMessage n min max) (addClass o p))
  else (true, p).

(** [checkNumber(o, n)], lines 87-95. *)
Definition checkNumber (o : Field) (n : string) (p : Page) : bool * Page :=
  if Number_isNaN (val p o) then
    (false, updateTips (numberMessage n) (addClass o p))
  else (true, p).

(** [checkRegexp(o, regexp, n)], lines 97-105. *)
Definition checkRegexp (o : Field) (regexp : Regexp.regexp) (n : string)
    (p : Page) : bool * Page :=
  if negb (Regexp.test regexp (value p o)) then
    (false, updateTips n (addClass o p))
  else (true, p).

(** [valid = valid && check(...)]: the check runs only while [valid] holds. *)
Definition andCheck (valid : bool) (check : Page -> bool * Page) (p : Page)
  : bool * Page :=
  if valid then check p else (false, p).

Section SaveNewPlan.

(** [moment(s, 'MM/DD/YYYY HH:mm').format()] of the moment.js library. *)
Variable momentFormat : string -> string.

(** [saveNewPlan()], lines 129-164.  The string built on line 140 is
    dropped there; the callbacks of the request run after the pass. *)
Definition saveNewPlan (p0 : Page) : completion bool * Page :=
  let valid := true in
  let p := removeClass allFields p0 in
  let expires := "" in
  let '(valid, p) :=
    andCheck valid (checkLength couponCode "Coupon Code" 3 128) p in
  let '(valid, p) :=
    andCheck valid (checkNumber listPriceMonthlyCredit "List Price Monthly") p in
  let '(valid, p) :=
    andCheck valid
      (checkNumber discountedPriceMonthlyCredit "Discounted Price Monthly") p in
  let '(valid, expires, p) :=
    if negb (Js.len (value p couponExpiresDate) =? 0) then
      let '(valid, p) :=
        andCheck valid (checkRegexp couponExpiresDate datePattern dateMessage) p in
      if valid then (valid, momentFormat (value p couponExpiresDate), p)
      else (valid, expires, p)
    else (valid, expires, p) in
  if valid then
    match dollarsToCents (value p listPriceMonthlyCredit),
          dollarsToCents (value p discountedPriceMonthlyCredit) with
    | Some listPrice, Some discountedPrice =>
        let newPlanData :=
          NewPlanData.make
            (value p couponCode)
            (value p planTypeEnum)
            (value p couponAppliedMessage)
            (value p hiddenPlanComment)
            listPrice
            discountedPrice
            (value p featuresProvidedBitmap)
            expires in
        let apiURL := origin p +:+ "/apis/v1/createNewPlan" in
        (Returned valid, getJSON apiURL newPlanData p)
    | _, _ => (Thrown, p)
    end
  else (Returned valid, p).

End SaveNewPlan.

(** ** The limit parameter of the page address *)

(** [getLimitFromUrl()], lines 222-229, on [window.location.href]. *)
Definition getLimitFromUrl (href : string) : JsValue :=
  let newUrl := href in
  if Js.includes "?limit=" newUrl then
    VString (Js.slice newUrl (Js.lastIndexOf "=" newUrl + 1))
  else VNumber PrimFloat.zero.

(** The click handler of [#update], lines 290-299: the address the page
    navigates to, from the spinner's value and the current address. *)
Definition update_click (limit href : string) : string :=
  let newUrl := href in
  if truthy (getLimitFromUrl href) then
    Js.sliceRange newUrl 0 (Js.lastIndexOf "=" newUrl + 1) +:+ limit
  else newUrl +:+ "?limit=" +:+ limit.

(** ** The roll-up of older versions *)

(** A row of the table [#pl]: the text of its cells and its inline
    [display] style. *)
Record Row : Type := mkRow {
  cells : list string;
  display : string
}.

(** [$(row).css("display", v)] *)
Definition css_display (v : string) (row : Row) : Row :=
  mkRow (cells row) v.

(** A row is shown unless its [display] is [none]. *)
Definition visible (row : Row) : bool :=
  negb (String.eqb (display row) "none").

(** The property names every object literal inherits from
    [Object.prototype]. *)
Definition objectPrototypeNames : list string :=
  ["constructor"; "__defineGetter__"; "__defineSetter__"; "hasOwnProperty";
   "__lookupGetter__"; "__lookupSetter__"; "isPrototypeOf";
   "propertyIsEnumerable"; "toString"; "valueOf"; "__proto__";
   "toLocaleString"].

(** [key in hashmap]: an own property, or an inherited one. *)
Definition jsIn (key : string) (hashmap : gmap string bool) : bool :=
  match hashmap !! key with
  | Some _ => true
  | None => bool_decide (key ∈ objectPrototypeNames)
  end.

(** [hashmap[key] = v]: assigning to [__proto__] creates no own property. *)
Definition jsSet (key : string) (v : bool) (hashmap : gmap string bool)
  : gmap string bool :=
  if decide (key = "__proto__") then hashmap else <[key := v]> hashmap.

(** [coupon + "~" + type] of a row, lines 269-271; [None] when the row has
    no cell 1 or no cell 2. *)
Definition rowKey (row : Row) : option string :=
  match cells row !! 1%nat with
  | Some coupon =>
      match cells row !! 2%nat with
      | Some type => Some (coupon +:+ "~" +:+ type)
      | None => None
      end
  | None => None
  end.

(** The body of the loop of lines 267-285, from the row at hand to the last
    one: the rows as the loop leaves them, and how it ended. *)
Fixpoint rollupRows (checked : bool) (hashmap : gmap string bool)
    (rows : list Row) : completion unit * list Row :=
  match rows with
  | [] => (Returned tt, [])
  | row :: rest =>
      match rowKey row with
      | None => (Thrown, row :: rest)
      | Some key =>
          if checked then
            if jsIn key hashmap then
              let '(c, rest') := rollupRows checked hashmap rest in
              (c, css_display "none" row :: rest')
            else
              let '(c, rest') :=
                rollupRows checked (jsSet key true hashmap) rest in
              (c, row :: rest')
          else
            let '(c, rest') := rollupRows checked hashmap rest in
            (c, css_display "" row :: rest')
      end
  end.

(** The change handler of [#rollupOlderVersions], lines 257-286: [checked]
    is the state of the check box, [table] the rows of [#pl].  The loop
    starts at index 1. *)
Definition rollupOlderVersions_change (checked : bool) (table : list Row)
  : completion unit * list Row :=
  match table with
  | [] => (Returned tt, [])
  | header :: rows =>
      let '(c, rows') := rollupRows checked ∅ rows in
      (c, header :: rows')
  end.

(** ** Vocabulary of the specification *)

(** The fractional part adjusted to two digits: cut after two characters
    when longer, filled with zeros on the right when shorter. *)
Definition twoDigits (F : string) : string :=
  if 2 <? Js.len F then Js.take 2 F
  else F +:+ Js.take (2 - String.length F) "00".

(** A decimal digit. *)
Definition isDigit (c : ascii) : bool := Regexp.inRange "0" "9" c.

(** Two digits, a slash, two digits, a slash, four digits. *)
Definition isDate (s : string) : bool :=
  match s with
  | String m1 (String m2 (String s1 (String d1 (String d2 (String s2
      (String y1 (String y2 (String y3 (String y4 EmptyString))))))))) =>
      isDigit m1 && isDigit m2 && Ascii.eqb s1 "/" &&
      isDigit d1 && isDigit d2 && Ascii.eqb s2 "/" &&
      isDigit y1 && isDigit y2 && isDigit y3 && isDigit y4
  | _ => false
  end.

(** Strings written one after the other. *)
Definition concatAll (parts : list string) : string :=
  foldr String.app "" parts.

(** The data rows of a table: all rows but the first. *)
Definition dataRows (table : list Row) : list Row := tail table.

(** The keys of a list of rows, in order. *)
Definition rowKeys (rows : list Row) : list string := omap rowKey rows.

(** A row has the two cells the key is read from. *)
Definition hasKeyCells (row : Row) : Prop := is_Some (rowKey row).

(** The number of rows shown. *)
Definition visibleCount (rows : list Row) : nat :=
  length (filter (fun row => visible row = true) rows).

(** ** Example data *)

(** A header row and the three data rows [(A,1)], [(A,1)], [(B,1)]. *)
Definition exampleTable : list Row :=
  [ mkRow ["id"; "coupon"; "type"] "";
    mkRow ["3"; "A"; "1"] "";
    mkRow ["2"; "A"; "1"] "";
    mkRow ["1"; "B"; "1"] "" ].

(** A page of the dialog with the given coupon code, list price, discounted
    price and expiration date, the other fields empty, nothing flagged and
    nothing sent yet. *)
Definition examplePage (coupon listPrice discountedPrice expires : string)
  : Page :=
  mkPage
    (fun f =>
       match f with
       | couponCode => coupon
       | listPriceMonthlyCredit => listPrice
       | discountedPriceMonthlyCredit => discountedPrice
       | couponExpiresDate => expires
       | _ => ""
       end)
    (fun _ => false) "" false [] [] "https://api.example.org".

(** ** Filling the dialog from the active plan *)

(** The page-global [activePlan]: each property as the string its field
    holds once the property is written to it. *)
Module ActivePlan.
Record t : Type := make {
  id : string;
  coupon_code : string;
  plan_type_enum : string;
  hidden_plan_comment : string;
  coupon_applied_message : string;
  list_price_monthly_credit : string;
  discounted_price_monthly_credit : string;
  redemptions : string;
  features_provided_bitmap : string;
  plan_created_at : string
}.
End ActivePlan.

(** [o.val(v)] *)
Definition setVal (o : Field) (v : string) (p : Page) : Page :=
  mkPage (fun f => if decide (f = o) then v else value p f)
         (hasError p) (tipsText p) (tipsHighlight p) (timeouts p) (requests p)
         (origin p).

(** [setInitialValues()], lines 168-180. *)
Definition setInitialValues (activePlan : ActivePlan.t) (p : Page) : Page :=
  let p := setVal idfld (ActivePlan.id activePlan) p in
  let p := setVal couponCode (ActivePlan.coupon_code activePlan) p in
  let p := setVal planTypeEnum (ActivePlan.plan_type_enum activePlan) p in
  let p := setVal hiddenPlanComment (ActivePlan.hidden_plan_comment activePlan) p in
  let p :=
    setVal couponAppliedMessage (ActivePlan.coupon_applied_message activePlan) p in
  let p :=
    setVal listPriceMonthlyCredit
      (ActivePlan.list_price_monthly_credit activePlan) p in
  let p :=
    setVal discountedPriceMonthlyCredit
      (ActivePlan.discounted_price_monthly_credit activePlan) p in
  let p := setVal redemptions (ActivePlan.redemptions activePlan) p in
  let p :=
    setVal featuresProvidedBitmap (ActivePlan.features_provided_bitmap activePlan) p in
  setVal planCreatedAt (ActivePlan.plan_created_at activePlan) p.

(** ** Further vocabulary *)

(** A string of decimal digits. *)
Fixpoint allDigits (s : string) : bool :=
  match s with
  | EmptyString => true
  | String c s' => isDigit c && allDigits s'
  end.

(** The number a string of decimal digits writes, after [acc]. *)
Fixpoint digitsValueFrom (acc : Z) (s : string) : Z :=
  match s with
  | EmptyString => acc
  | String c s' => digitsValueFrom (10 * acc + (Z.of_N (N_of_ascii c) - 48)) s'
  end.

Definition digitsValue (s : string) : Z := digitsValueFrom 0 s.

(** The fields that carry the error class. *)
Definition flagged (p : Page) : list Field :=
  filter (fun o => hasError p o = true) allFields.

(** * Properties *)

(** ** Strings *)

Section StringFacts.

Implicit Types (s t : string) (c : ascii).

Lemma app_empty_r s : s +:+ "" = s.
Proof. induction s as [|a s IH]; [done|]. unfold String.app in *; simpl. by rewrite IH. Qed.

Lemma app_cons a s t : String a s +:+ t = String a (s +:+ t).
Proof. done. Qed.

Lemma app_empty_l s : "" +:+ s = s.
Proof. done. Qed.

Lemma app_assoc' s t u : (s +:+ t) +:+ u = s +:+ t +:+ u.
Proof. induction s as [|a s IH]; [done|]. rewrite !app_cons. by rewrite IH. Qed.

Lemma length_app' s t :
  String.length (s +:+ t) = (String.length s + String.length t)%nat.
Proof. induction s as [|a s IH]; [done|]. rewrite app_cons. simpl. by rewrite IH. Qed.

Lemma len_nonneg s : 0 <= Js.len s.
Proof. unfold Js.len. lia. Qed.

Lemma len_zero s : Js.len s = 0 -> s = "".
Proof. unfold Js.len. destruct s; simpl; [done | lia]. Qed.

Lemma hasChar_app c s t :
  Js.hasChar c (s +:+ t) = Js.hasChar c s || Js.hasChar c t.
Proof.
  induction s as [|a s IH]; [done|].
  rewrite app_cons. simpl. rewrite IH. by rewrite orb_assoc.
Qed.

End StringFacts.

(** ** [indexOf], [split] and the decimal point *)

Section SplitFacts.

Implicit Types (s t : string) (c : ascii).

Lemma startsWith_char c a s :
  Js.startsWith (String c "") (String a s) = Ascii.eqb a c.
Proof.
  simpl. rewrite andb_true_r.
  destruct (Ascii.eqb_spec c a), (Ascii.eqb_spec a c); congruence.
Qed.

(** [s.indexOf(c) >= 0] exactly when [c] occurs in [s]. *)
Lemma indexOf_char_nonneg c s :
  (0 <=? Js.indexOf (String c "") s) = Js.hasChar c s.
Proof.
  induction s as [|a s IH]; [done|].
  cbn [Js.indexOf Js.hasChar]. rewrite startsWith_char.
  destruct (Ascii.eqb a c); [done|]. simpl orb.
  rewrite <- IH.
  destruct (Z.ltb_spec (Js.indexOf (String c "") s) 0);
    destruct (Z.leb_spec 0 (Js.indexOf (String c "") s));
    destruct (Z.leb_spec 0 (Js.indexOf (String c "") s + 1)); try lia; done.
Qed.

(** Every part of a split is free of the separator; there are at least
    two parts when the separator occurs. *)
Lemma splitParts_shape c s :
  Js.hasChar c (Js.splitParts c s).1 = false ∧
  Forall (fun part => Js.hasChar c part = false) (Js.splitParts c s).2 ∧
  (Js.hasChar c s = true -> (Js.splitParts c s).2 ≠ []).
Proof.
  induction s as [|a s (IH1 & IH2 & IH3)]; [by repeat split|].
  cbn [Js.splitParts Js.hasChar].
  destruct (Js.splitParts c s) as [hd tl]; simpl in *.
  destruct (Ascii.eqb a c) eqn:Hac; simpl.
  - repeat split; [by constructor | done].
  - rewrite Hac. by repeat split.
Qed.

(** A string [D.F...] splits into [D], [F] and what follows. *)
Lemma splitParts_prefix c D rest :
  Js.hasChar c D = false ->
  (rest = "" ∨ ∃ r, rest = String c r) ->
  (Js.splitParts c (D +:+ rest)).1 = D.
Proof.
  intros HD Hrest. induction D as [|a D IH].
  - rewrite app_empty_l. destruct Hrest as [->|[r ->]]; [done|].
    cbn [Js.splitParts]. destruct (Js.splitParts c r).
    by rewrite Ascii.eqb_refl.
  - simpl in HD. apply orb_false_iff in HD as [Hac HD].
    rewrite app_cons. cbn [Js.splitParts].
    specialize (IH HD).
    destruct (Js.splitParts c (D +:+ rest)) as [hd tl]; simpl in *.
    rewrite Hac. simpl. by rewrite IH.
Qed.

Lemma splitParts_point c D rest :
  Js.hasChar c D = false ->
  Js.splitParts c (D +:+ String c rest) = (D, Js.split c rest).
Proof.
  intros HD. induction D as [|a D IH].
  - rewrite app_empty_l. cbn [Js.splitParts]. unfold Js.split.
    destruct (Js.splitParts c rest). by rewrite Ascii.eqb_refl.
  - simpl in HD. apply orb_false_iff in HD as [Hac HD].
    rewrite app_cons. cbn [Js.splitParts]. rewrite (IH HD). by rewrite Hac.
Qed.

Lemma split_point c D F rest :
  Js.hasChar c D = false ->
  Js.hasChar c F = false ->
  (rest = "" ∨ ∃ r, rest = String c r) ->
  ∃ tl, Js.split c (D +:+ String c (F +:+ rest)) = D :: F :: tl.
Proof.
  intros HD HF Hrest. unfold Js.split at 1.
  rewrite (splitParts_point c D _ HD). unfold Js.split.
  pose proof (splitParts_prefix c F rest HF Hrest) as Hfst.
  destruct (Js.splitParts c (F +:+ rest)) as [hd tl]; simpl in *.
  subst hd. by exists tl.
Qed.

End SplitFacts.

(** ** The currency normalizer *)

Section DollarsToCents.

Lemma take_all_short s n :
  (String.length s <= n)%nat -> Js.take n s = s.
Proof.
  revert n. induction s as [|a s IH]; intros [|n] Hn; simpl in *; try done; try lia.
  rewrite IH; [done | lia].
Qed.

Lemma hasChar_take c n s :
  Js.hasChar c s = false -> Js.hasChar c (Js.take n s) = false.
Proof.
  revert s. induction n as [|n IH]; intros [|a s]; simpl; try done.
  intros [Hac Hs]%orb_false_iff. by rewrite Hac, IH.
Qed.

(** [cents.substring(0, 2)] is the first two characters of [cents]. *)
Lemma substring_0_2 s : Js.substring s 0 2 = Js.take 2 s.
Proof.
  unfold Js.substring. pose proof (len_nonneg s) as Hlen.
  replace (Z.min (Z.max 0 0) (Js.len s)) with 0 by lia.
  destruct (Z.le_gt_cases 2 (Js.len s)) as [Hle|Hgt].
  - replace (Z.min (Z.max 2 0) (Js.len s)) with 2 by lia.
    by replace (Z.max 0 2 - Z.min 0 2) with 2 by lia.
  - replace (Z.min (Z.max 2 0) (Js.len s)) with (Js.len s) by lia.
    replace (Z.max 0 (Js.len s) - Z.min 0 (Js.len s)) with (Js.len s) by lia.
    replace (Z.to_nat (Z.min 0 (Js.len s))) with O by lia. simpl Js.drop.
    unfold Js.len in *. rewrite Nat2Z.id.
    rewrite !take_all_short; [done | lia | lia].
Qed.

(** The two-digit fractional part has two characters. *)
Lemma twoDigits_length F : String.length (twoDigits F) = 2%nat.
Proof.
  unfold twoDigits, Js.len.
  destruct F as [|a [|b [|c F]]]; try done.
  destruct (Z.ltb_spec 2 (Z.of_nat (String.length (String a (String b (String c F))))));
    [done | simpl in *; lia].
Qed.

Lemma twoDigits_no_point F :
  Js.hasChar "." F = false -> Js.hasChar "." (twoDigits F) = false.
Proof.
  intros HF. unfold twoDigits. destruct (2 <? Js.len F).
  - by apply hasChar_take.
  - rewrite hasChar_app, HF. by apply hasChar_take.
Qed.

(** What the function answers once the split is known. *)
Lemma dollarsToCents_split cost D F tl :
  Js.hasChar "." cost = true ->
  Js.split "." cost = D :: F :: tl ->
  dollarsToCents cost = Some (D +:+ twoDigits F).
Proof.
  intros Hpoint Hsplit. unfold dollarsToCents.
  rewrite app_empty_r.
  destruct (Z.eqb_spec (Js.len cost) 0) as [Hlen|_].
  { apply len_zero in Hlen as ->. done. }
  rewrite indexOf_char_nonneg, Hpoint, Hsplit. cbn [lookup list_lookup].
  unfold twoDigits.
  destruct F as [|a [|b [|c F]]]; try done.
  destruct (Z.ltb_spec 2 (Js.len (String a (String b (String c F)))));
    [by rewrite substring_0_2 | unfold Js.len in *; simpl in *; lia].
Qed.

(** The function always answers, and never with a decimal point. *)
Lemma dollarsToCents_total cost :
  ∃ r, dollarsToCents cost = Some r ∧ Js.hasChar "." r = false.
Proof.
  destruct (Js.hasChar "." cost) eqn:Hpoint.
  - pose proof (splitParts_shape "." cost) as (Hhd & Htl & Hne).
    specialize (Hne Hpoint).
    assert (∃ D F tl, Js.split "." cost = D :: F :: tl ∧
              Js.hasChar "." D = false ∧ Js.hasChar "." F = false)
      as (D & F & tl & Hsplit & HD & HF).
    { unfold Js.split. destruct (Js.splitParts "." cost) as [hd [|F tl]];
        simpl in *; [done|].
      exists hd, F, tl. repeat split; [done|]. by inversion Htl. }
    exists (D +:+ twoDigits F). split.
    + by apply (dollarsToCents_split cost D F tl).
    + by rewrite hasChar_app, HD, twoDigits_no_point.
  - unfold dollarsToCents. rewrite app_empty_r.
    destruct (Z.eqb_spec (Js.len cost) 0); [by exists ""|].
    rewrite indexOf_char_nonneg, Hpoint.
    exists (cost +:+ "00"). split; [done|]. by rewrite hasChar_app, Hpoint.
Qed.

End DollarsToCents.

(** C1.  [dollarsToCents]: the empty string gives the empty string; a string
    [D.F] (followed, perhaps, by further points, of which only the first
    split counts) gives [D] followed by [F] cut or zero-filled to exactly two
    characters, the characters of [F] being copied and never rounded; a
    non-empty string without a point gives the input followed by [00]; the
    function always answers and its answer holds no decimal point.  The four
    examples of the specification are instances. *)
Theorem dollarsToCents_spec :
  (∀ cost : string,
     (cost = "" -> dollarsToCents cost = Some "") ∧
     (∀ D F rest,
        cost = D +:+ "." +:+ F +:+ rest ->
        Js.hasChar "." D = false ->
        Js.hasChar "." F = false ->
        (rest = "" ∨ ∃ r, rest = String "." r) ->
        dollarsToCents cost = Some (D +:+ twoDigits F) ∧
        String.length (twoDigits F) = 2%nat ∧
        twoDigits F = Js.take 2 (F +:+ "00")) ∧
     (cost ≠ "" -> Js.hasChar "." cost = false ->
        dollarsToCents cost = Some (cost +:+ "00")) ∧
     (∃ r, dollarsToCents cost = Some r ∧ Js.hasChar "." r = false)) ∧
  dollarsToCents "12.5" = Some "1250" ∧
  dollarsToCents "12.345" = Some "1234" ∧
  dollarsToCents "12" = Some "1200" ∧
  dollarsToCents "" = Some "".
Proof.
  split; [|by repeat split].
  intros cost. split; [by intros ->|]. split; [|split].
  - intros D F rest -> HD HF Hrest.
    change ("." +:+ F +:+ rest) with (String "." (F +:+ rest)).
    destruct (split_point "." D F rest HD HF Hrest) as [tl Hsplit].
    split; [|split].
    + apply (dollarsToCents_split _ D F tl); [|done].
      rewrite hasChar_app. simpl. by rewrite orb_true_r.
    + apply twoDigits_length.
    + unfold twoDigits. destruct F as [|a [|b [|c F]]]; try done.
      by destruct (Z.ltb_spec 2 (Js.len (String a (String b (String c F)))));
        [| unfold Js.len in *; simpl in *; lia].
  - intros Hne Hpoint. unfold dollarsToCents. rewrite app_empty_r.
    destruct (Z.eqb_spec (Js.len cost) 0) as [Hlen|_].
    { by apply len_zero in Hlen. }
    by rewrite indexOf_char_nonneg, Hpoint.
  - apply dollarsToCents_total.
Qed.

(** The decimal string [12.5]: [D] is [12], [F] is [5], nothing follows. *)
Lemma dollarsToCents_spec_witness :
  dollarsToCents "12.5" = Some ("12" +:+ twoDigits "5") ∧
  dollarsToCents "7" = Some ("7" +:+ "00").
Proof.
  destruct dollarsToCents_spec as [Hall _]. split.
  - destruct (Hall "12.5") as (_ & Hpoint & _ & _).
    destruct (Hpoint "12" "5" "") as [H _]; [reflexivity .. | by left | exact H].
  - destruct (Hall "7") as (_ & _ & Hint & _).
    apply Hint; [discriminate | reflexivity].
Defined.

(** ** The limit parameter of the page address *)

Section LimitFromUrl.

Implicit Types (s t needle : string) (c : ascii).

Lemma startsWith_iff needle s :
  Js.startsWith needle s = true ↔ ∃ t, s = needle +:+ t.
Proof.
  revert s. induction needle as [|a needle IH]; intros s.
  - split; [by exists s | done].
  - destruct s as [|b s]; simpl.
    + split; [done | by intros [t Ht]].
    + rewrite andb_true_iff, IH. split.
      * intros [->%Ascii.eqb_eq [t ->]]. by exists t.
      * intros [t Ht]. rewrite app_cons in Ht. injection Ht as -> ->.
        split; [apply Ascii.eqb_refl | by exists t].
Qed.

(** [includes] answers whether the needle occurs somewhere in the string. *)
Lemma includes_iff needle s :
  Js.includes needle s = true ↔ ∃ pre post, s = pre +:+ needle +:+ post.
Proof.
  induction s as [|a s IH].
  - simpl. rewrite orb_false_r, startsWith_iff. split.
    + intros [t Ht]. by exists "", t.
    + intros ([|b pre] & post & Hs); [by exists post | done].
  - cbn [Js.includes]. rewrite orb_true_iff, IH, startsWith_iff. split.
    + intros [[t Ht]|(pre & post & ->)].
      * by exists "", t.
      * by exists (String a pre), post.
    + intros ([|b pre] & post & Hs).
      * left. by exists post.
      * right. rewrite app_cons in Hs. injection Hs as -> ->. by exists pre, post.
Qed.

Lemma includes_hasChar needle s c :
  Js.hasChar c needle = true ->
  Js.includes needle s = true ->
  Js.hasChar c s = true.
Proof.
  intros Hc (pre & post & ->)%includes_iff.
  by rewrite !hasChar_app, Hc, orb_true_r.
Qed.

(** A string in which [c] occurs ends in [c] and a part free of [c]. *)
Lemma hasChar_last c s :
  Js.hasChar c s = true ->
  ∃ pre suf, s = pre +:+ String c suf ∧ Js.hasChar c suf = false.
Proof.
  induction s as [|a s IH]; [done|].
  destruct (Js.hasChar c s) eqn:Hs.
  - intros _. destruct (IH eq_refl) as (pre & suf & -> & Hsuf).
    by exists (String a pre), suf.
  - simpl. rewrite Hs, orb_false_r. intros ->%Ascii.eqb_eq.
    by exists "", s.
Qed.

Lemma lastIndexOf_absent c s :
  Js.hasChar c s = false -> Js.lastIndexOf (String c "") s = -1.
Proof.
  induction s as [|a s IH]; [done|].
  simpl Js.hasChar. intros [Hac Hs]%orb_false_iff.
  cbn [Js.lastIndexOf]. rewrite (IH Hs), startsWith_char, Hac. done.
Qed.

(** [lastIndexOf] finds the last occurrence. *)
Lemma lastIndexOf_last c pre suf :
  Js.hasChar c suf = false ->
  Js.lastIndexOf (String c "") (pre +:+ String c suf) = Js.len pre.
Proof.
  intros Hsuf. induction pre as [|a pre IH].
  - rewrite app_empty_l. cbn [Js.lastIndexOf].
    rewrite (lastIndexOf_absent c suf Hsuf), startsWith_char, Ascii.eqb_refl.
    done.
  - rewrite app_cons. cbn [Js.lastIndexOf]. rewrite IH.
    pose proof (len_nonneg pre).
    destruct (Z.leb_spec 0 (Js.len pre)); [|lia].
    unfold Js.len. simpl String.length. lia.
Qed.

Lemma drop_app_length pre s :
  Js.drop (String.length pre) (pre +:+ s) = s.
Proof. induction pre as [|a pre IH]; [done|]. by rewrite app_cons. Qed.

(** [slice] from just after the last [c] gives what follows it. *)
Lemma slice_after c pre suf :
  Js.slice (pre +:+ String c suf) (Js.len pre + 1) = suf.
Proof.
  unfold Js.slice, Js.sliceRange, Js.sliceIndex.
  assert (Hlen : Js.len (pre +:+ String c suf) = Js.len pre + 1 + Js.len suf).
  { unfold Js.len. rewrite length_app'. simpl String.length. lia. }
  pose proof (len_nonneg pre). pose proof (len_nonneg suf).
  rewrite Hlen.
  destruct (Z.ltb_spec (Js.len pre + 1) 0); [lia|].
  destruct (Z.ltb_spec (Js.len pre + 1 + Js.len suf) 0); [lia|].
  replace (Z.min (Js.len pre + 1) (Js.len pre + 1 + Js.len suf))
    with (Js.len pre + 1) by lia.
  rewrite Z.min_id.
  replace (Js.len pre + 1 + Js.len suf - (Js.len pre + 1)) with (Js.len suf)
    by lia.
  replace (Z.to_nat (Js.len pre + 1)) with (String.length (pre +:+ String c ""))
    by (rewrite length_app'; unfold Js.len; simpl; lia).
  replace (pre +:+ String c suf) with ((pre +:+ String c "") +:+ suf)
    by by rewrite app_assoc'.
  rewrite drop_app_length. unfold Js.len. rewrite Nat2Z.id.
  by apply take_all_short.
Qed.

End LimitFromUrl.

(** C9.  [getLimitFromUrl] answers the number 0 when the address does not
    contain [?limit=]; when it does, the address is some [pre], an equals
    sign, and a part [suf] without equals sign, and the answer is [suf]: what
    follows the last equals sign of the whole address.  With another
    parameter after the limit, the answer is the value of that parameter. *)
Theorem getLimitFromUrl_spec :
  (∀ href : string,
     (Js.includes "?limit=" href = true ↔
      ∃ pre post, href = pre +:+ "?limit=" +:+ post) ∧
     (Js.includes "?limit=" href = false ->
      getLimitFromUrl href = VNumber PrimFloat.zero) ∧
     (Js.includes "?limit=" href = true ->
      ∃ pre suf,
        href = pre +:+ "=" +:+ suf ∧
        Js.hasChar "=" suf = false ∧
        getLimitFromUrl href = VString suf)) ∧
  getLimitFromUrl "https://wevote.example/plans" = VNumber PrimFloat.zero ∧
  getLimitFromUrl "https://wevote.example/plans?limit=25" = VString "25" ∧
  getLimitFromUrl "https://wevote.example/plans?limit=25&show=all"
    = VString "all".
Proof.
  split; [|by vm_compute].
  intros href. split; [apply includes_iff|]. split.
  - intros Hno. unfold getLimitFromUrl. by rewrite Hno.
  - intros Hyes.
    destruct (hasChar_last "=" href) as (pre & suf & -> & Hsuf).
    { by apply (includes_hasChar "?limit="). }
    exists pre, suf. repeat split; [done|].
    unfold getLimitFromUrl. rewrite Hyes.
    by rewrite (lastIndexOf_last "=" pre suf Hsuf), slice_after.
Qed.

(** The update button replaces what follows the last equals sign. *)
Example update_click_replaces :
  update_click "50" "https://wevote.example/plans?limit=25"
    = "https://wevote.example/plans?limit=50" ∧
  update_click "50" "https://wevote.example/plans"
    = "https://wevote.example/plans?limit=50".
Proof. by vm_compute. Qed.

(** Two addresses: one without the parameter, one with a parameter after
    it. *)
Lemma getLimitFromUrl_spec_witness :
  getLimitFromUrl "https://wevote.example/" = VNumber PrimFloat.zero ∧
  ∃ pre suf,
    "https://wevote.example/?limit=5&page=2" = pre +:+ "=" +:+ suf ∧
    getLimitFromUrl "https://wevote.example/?limit=5&page=2" = VString suf.
Proof.
  destruct getLimitFromUrl_spec as [Hall _]. split.
  - destruct (Hall "https://wevote.example/") as (_ & Hno & _).
    apply Hno. reflexivity.
  - destruct (Hall "https://wevote.example/?limit=5&page=2") as (_ & _ & Hyes).
    destruct (Hyes eq_refl) as (pre & suf & Hsplit & _ & Hrun).
    exists pre, suf. split; [exact Hsplit | exact Hrun].
Defined.

(** ** The roll-up of older versions *)

Section Rollup.

Implicit Types (row : Row) (rows : list Row) (hashmap : gmap string bool).

(** No inherited property name holds the delimiter of the keys. *)
Lemma objectPrototypeNames_no_tilde :
  Forall (fun name => Js.hasChar "~" name = false) objectPrototypeNames.
Proof. unfold objectPrototypeNames. by repeat constructor. Qed.

Lemma rowKey_has_tilde row key :
  rowKey row = Some key -> Js.hasChar "~" key = true.
Proof.
  unfold rowKey. destruct (cells row !! 1%nat) as [coupon|]; [|done].
  destruct (cells row !! 2%nat) as [type|]; [|done].
  intros [= <-]. rewrite hasChar_app. simpl. by rewrite orb_true_r.
Qed.

Lemma take_app_length pre s : Js.take (String.length pre) (pre +:+ s) = pre.
Proof.
  induction pre as [|a pre IH]; [done|]. rewrite app_cons. simpl. by rewrite IH.
Qed.

(** The key determines the coupon code and the plan type, as long as the
    plan type holds no delimiter. *)
Lemma key_pair_inj coupon1 type1 coupon2 type2 :
  Js.hasChar "~" type1 = false ->
  Js.hasChar "~" type2 = false ->
  coupon1 +:+ "~" +:+ type1 = coupon2 +:+ "~" +:+ type2 ->
  coupon1 = coupon2 ∧ type1 = type2.
Proof.
  intros H1 H2.
  change ("~" +:+ type1) with (String "~" type1).
  change ("~" +:+ type2) with (String "~" type2).
  intros Heq.
  pose proof (lastIndexOf_last "~" coupon1 type1 H1) as Hl1.
  pose proof (lastIndexOf_last "~" coupon2 type2 H2) as Hl2.
  rewrite Heq, Hl2 in Hl1.
  pose proof (slice_after "~" coupon1 type1) as Hs1.
  pose proof (slice_after "~" coupon2 type2) as Hs2.
  rewrite Heq, <- Hl1, Hs2 in Hs1.
  pose proof (take_app_length coupon1 (String "~" type1)) as Ht1.
  pose proof (take_app_length coupon2 (String "~" type2)) as Ht2.
  assert (Hlen : String.length coupon1 = String.length coupon2)
    by (unfold Js.len in Hl1; lia).
  rewrite Heq, Hlen, Ht2 in Ht1. by split.
Qed.

(** A plan type with the delimiter can make two different rows share a
    key. *)
Example key_collision :
  rowKey (mkRow ["2"; "A~B"; "C"] "") = rowKey (mkRow ["1"; "A"; "B~C"] "").
Proof. reflexivity. Qed.

Lemma tilde_not_inherited key :
  Js.hasChar "~" key = true -> key ∉ objectPrototypeNames.
Proof.
  intros Hkey Hin.
  pose proof objectPrototypeNames_no_tilde as Hall.
  rewrite Forall_forall in Hall. specialize (Hall key Hin). congruence.
Qed.

(** For a key of a row, [key in hashmap] tests the own properties only,
    and [hashmap[key] = true] adds one. *)
Lemma jsIn_rowKey row key hashmap :
  rowKey row = Some key ->
  jsIn key hashmap = bool_decide (key ∈ dom hashmap).
Proof.
  intros Hkey%rowKey_has_tilde. unfold jsIn.
  destruct (hashmap !! key) as [b|] eqn:Hlook.
  - symmetry. apply bool_decide_eq_true. apply elem_of_dom. eauto.
  - rewrite (bool_decide_eq_false_2 (key ∈ objectPrototypeNames))
      by by apply tilde_not_inherited.
    symmetry. apply bool_decide_eq_false. by apply not_elem_of_dom.
Qed.

Lemma jsSet_rowKey row key hashmap :
  rowKey row = Some key ->
  jsSet key true hashmap = <[key := true]> hashmap.
Proof.
  intros Hkey%rowKey_has_tilde. unfold jsSet.
  destruct (decide (key = "__proto__")) as [->|]; done.
Qed.

Lemma rowKeys_cons row rows key :
  rowKey row = Some key -> rowKeys (row :: rows) = key :: rowKeys rows.
Proof. intros Hkey. unfold rowKeys. simpl. by rewrite Hkey. Qed.

(** One step of the loop on a row that has its key. *)
Lemma rollupRows_cons checked hashmap row rows key :
  rowKey row = Some key ->
  rollupRows checked hashmap (row :: rows) =
    if checked then
      if bool_decide (key ∈ dom hashmap) then
        ((rollupRows checked hashmap rows).1,
         css_display "none" row :: (rollupRows checked hashmap rows).2)
      else
        ((rollupRows checked (<[key := true]> hashmap) rows).1,
         row :: (rollupRows checked (<[key := true]> hashmap) rows).2)
    else
      ((rollupRows checked hashmap rows).1,
       css_display "" row :: (rollupRows checked hashmap rows).2).
Proof.
  intros Hkey. cbn [rollupRows]. rewrite Hkey.
  rewrite (jsIn_rowKey row key hashmap Hkey), (jsSet_rowKey row key hashmap Hkey).
  destruct checked; [destruct (bool_decide _)|];
    by match goal with |- context [rollupRows ?c ?m ?l] =>
         destruct (rollupRows c m l) end.
Qed.

(** The loop changes no cell and drops no row, however it ends. *)
Lemma rollupRows_cells checked hashmap rows :
  cells <$> (rollupRows checked hashmap rows).2 = cells <$> rows.
Proof.
  revert hashmap. induction rows as [|row rows IH]; intros hashmap; [done|].
  destruct (rowKey row) as [key|] eqn:Hkey.
  - rewrite (rollupRows_cons _ _ _ _ key Hkey).
    destruct checked; [destruct (bool_decide _)|]; simpl; by rewrite IH.
  - cbn [rollupRows]. by rewrite Hkey.
Qed.

Lemma rollupRows_length checked hashmap rows :
  length (rollupRows checked hashmap rows).2 = length rows.
Proof.
  rewrite <- (length_fmap cells), rollupRows_cells. apply length_fmap.
Qed.

Lemma hasKeyCells_cells row row' :
  cells row = cells row' -> hasKeyCells row -> hasKeyCells row'.
Proof. unfold hasKeyCells, rowKey. by intros ->. Qed.

Lemma Forall_hasKeyCells_cells rows rows' :
  cells <$> rows' = cells <$> rows ->
  Forall hasKeyCells rows -> Forall hasKeyCells rows'.
Proof.
  revert rows'. induction rows as [|row rows IH]; intros [|row' rows'] Heq Hall;
    try done.
  simpl in Heq. injection Heq as Hc Heq. inversion Hall; subst.
  constructor; [by eapply hasKeyCells_cells | by apply IH].
Qed.

(** On rows that have their two cells the loop runs to its end. *)
Lemma rollupRows_returns checked hashmap rows :
  Forall hasKeyCells rows ->
  (rollupRows checked hashmap rows).1 = Returned tt.
Proof.
  intros Hall. revert hashmap.
  induction Hall as [|row rows [key Hkey] _ IH]; intros hashmap; [done|].
  rewrite (rollupRows_cons _ _ _ _ key Hkey).
  destruct checked; [destruct (bool_decide _)|]; simpl; apply IH.
Qed.

(** Unchecked: every row gets the empty [display]. *)
Lemma rollupRows_unchecked hashmap rows :
  Forall hasKeyCells rows ->
  (rollupRows false hashmap rows).2 = css_display "" <$> rows.
Proof.
  induction 1 as [|row rows [key Hkey] _ IH]; [done|].
  rewrite (rollupRows_cons _ _ _ _ key Hkey). simpl. by rewrite IH.
Qed.

(** Checked: the row at [i] is hidden when its key is in the map already
    or belongs to an earlier row, and is left as it is otherwise. *)
Lemma rollupRows_checked_lookup hashmap rows i row key :
  Forall hasKeyCells rows ->
  rows !! i = Some row ->
  rowKey row = Some key ->
  (rollupRows true hashmap rows).2 !! i =
    Some (if decide (key ∈ dom hashmap ∨ key ∈ rowKeys (take i rows))
          then css_display "none" row else row).
Proof.
  intros Hall. revert hashmap i.
  induction Hall as [|r rows [k Hk] _ IH]; intros hashmap i Hi Hkey; [done|].
  rewrite (rollupRows_cons _ _ _ _ k Hk). cbn match.
  destruct i as [|i]; simpl in Hi.
  - injection Hi as ->. assert (k = key) as -> by congruence.
    cbn [take rowKeys omap list_omap].
    case_bool_decide as Hdom; simpl; case_decide as Hd; try done.
    + destruct Hd. by left.
    + destruct Hd as [?|Hnil]; [done | by apply elem_of_nil in Hnil].
  - pose proof (rowKeys_cons r (take i rows) k Hk) as Hcons.
    cbn [take].
    case_bool_decide as Hdom; cbn [snd]; rewrite lookup_cons, (IH _ i Hi Hkey);
      apply (f_equal Some).
    + destruct (decide (key ∈ dom hashmap ∨ key ∈ rowKeys (take i rows)))
        as [Hd|Hd],
        (decide (key ∈ dom hashmap ∨ key ∈ rowKeys (r :: take i rows)))
        as [Hd'|Hd']; try done; exfalso.
      * apply Hd'. destruct Hd as [?|?]; [by left|].
        right. rewrite Hcons. by apply elem_of_cons; right.
      * apply Hd. rewrite Hcons in Hd'.
        destruct Hd' as [?|[->|?]%elem_of_cons]; [by left | by left | by right].
    + rewrite dom_insert_L.
      destruct (decide (key ∈ {[k]} ∪ dom hashmap ∨ key ∈ rowKeys (take i rows)))
        as [Hd|Hd],
        (decide (key ∈ dom hashmap ∨ key ∈ rowKeys (r :: take i rows)))
        as [Hd'|Hd']; try done; exfalso.
      * apply Hd'. rewrite Hcons.
        destruct Hd as [[->%elem_of_singleton|?]%elem_of_union|?];
          [right; by apply elem_of_cons; left | by left
          | right; by apply elem_of_cons; right].
      * apply Hd. rewrite Hcons in Hd'.
        destruct Hd' as [?|[->|?]%elem_of_cons];
          [left; set_solver | left; set_solver | by right].
Qed.

Lemma visible_hidden row : visible (css_display "none" row) = false.
Proof. done. Qed.

(** Checked, on rows all shown: as many rows stay shown as there are keys
    not yet in the map. *)
Lemma rollupRows_checked_count hashmap rows :
  Forall hasKeyCells rows ->
  Forall (fun row => visible row = true) rows ->
  visibleCount (rollupRows true hashmap rows).2 =
    size (list_to_set (rowKeys rows) ∖ dom hashmap : gset string).
Proof.
  intros Hall. revert hashmap.
  induction Hall as [|r rows [k Hk] _ IH]; intros hashmap Hvis.
  - assert (list_to_set (rowKeys []) ∖ dom hashmap = (∅ : gset string))
      as -> by (apply set_eq; intros x; rewrite elem_of_difference;
                split; [by intros [?%elem_of_empty _] | by intros ?%elem_of_empty]).
    done.
  - inversion Hvis as [|? ? Hr Hrows]; subst.
    rewrite (rollupRows_cons _ _ _ _ k Hk), (rowKeys_cons _ _ _ Hk).
    rewrite list_to_set_cons. unfold visibleCount in *.
    case_bool_decide as Hdom; cbn [snd].
    + rewrite filter_cons_False by by rewrite visible_hidden.
      rewrite (IH hashmap Hrows). f_equal.
      apply set_eq. intros x. rewrite !elem_of_difference, elem_of_union,
        elem_of_singleton.
      destruct (decide (x = k)) as [->|]; intuition congruence.
    + rewrite filter_cons_True by done. cbn [length].
      rewrite (IH _ Hrows), dom_insert_L.
      replace (({[k]} ∪ list_to_set (rowKeys rows)) ∖ dom hashmap)
        with ({[k]} ∪ list_to_set (rowKeys rows) ∖ ({[k]} ∪ dom hashmap)
              : gset string).
      * rewrite (size_union (C:=gset string) {[k]}
                   (list_to_set (rowKeys rows) ∖ ({[k]} ∪ dom hashmap)))
          by (intros x Hx [_ Hnot]%elem_of_difference; apply Hnot;
              by apply elem_of_union; left).
        by rewrite (size_singleton (C:=gset string) k).
      * apply set_eq. intros x. rewrite !elem_of_union, !elem_of_difference,
          !elem_of_union, !elem_of_singleton.
        destruct (decide (x = k)) as [->|]; intuition congruence.
Qed.

(** Checked: which rows end up shown depends on the cells only, once all
    rows are shown at the start. *)
Lemma rollupRows_checked_visible_ext hashmap rows rows' :
  Forall hasKeyCells rows ->
  cells <$> rows' = cells <$> rows ->
  Forall (fun row => visible row = true) rows ->
  Forall (fun row => visible row = true) rows' ->
  visible <$> (rollupRows true hashmap rows').2 =
  visible <$> (rollupRows true hashmap rows).2.
Proof.
  intros Hall. revert hashmap rows'.
  induction Hall as [|r rows [k Hk] _ IH]; intros hashmap [|r' rows'] Hcells Hv Hv';
    try done.
  simpl in Hcells. injection Hcells as Hc Hcells.
  inversion Hv; inversion Hv'; subst.
  assert (Hk' : rowKey r' = Some k) by (unfold rowKey in *; by rewrite Hc).
  rewrite (rollupRows_cons _ _ _ _ k Hk), (rollupRows_cons _ _ _ _ k Hk').
  case_bool_decide; cbn [snd]; rewrite !fmap_cons; f_equal; try by apply IH.
  congruence.
Qed.

Lemma css_display_cells v rows rows' :
  cells <$> rows' = cells <$> rows ->
  css_display v <$> rows' = css_display v <$> rows.
Proof.
  revert rows'. induction rows as [|r rows IH]; intros [|r' rows'] Heq; try done.
  simpl in Heq. injection Heq as Hc Heq. rewrite !fmap_cons.
  f_equal; [unfold css_display; by rewrite Hc | by apply IH].
Qed.

(** The handler on a table with a first row. *)
Lemma rollupOlderVersions_change_cons checked header rows :
  rollupOlderVersions_change checked (header :: rows) =
    ((rollupRows checked ∅ rows).1, header :: (rollupRows checked ∅ rows).2).
Proof.
  unfold rollupOlderVersions_change. by destruct (rollupRows checked ∅ rows).
Qed.

Lemma rollupOlderVersions_change_cells checked table :
  cells <$> (rollupOlderVersions_change checked table).2 = cells <$> table.
Proof.
  destruct table as [|header rows]; [done|].
  rewrite rollupOlderVersions_change_cons. cbn [snd].
  by rewrite !fmap_cons, rollupRows_cells.
Qed.

End Rollup.

(** C2.  The key of a row is [coupon~type]; two rows whose plan types hold
    no [~] have the same key exactly when they have the same coupon code and
    the same plan type.  With the box checked, on a table whose data rows
    have their coupon and type cells, the handler runs to its end and goes
    through the data rows in order: a row whose key belongs to an earlier
    row gets [display: none], any other row is left as it is.  When the data
    rows are all shown before, the rows shown after are exactly the first
    occurrences of the keys, and there are as many of them as distinct
    keys. *)
Theorem rollup_collapse_keeps_first (table : list Row) :
  (∀ row1 row2 coupon1 type1 coupon2 type2,
     cells row1 !! 1%nat = Some coupon1 -> cells row1 !! 2%nat = Some type1 ->
     cells row2 !! 1%nat = Some coupon2 -> cells row2 !! 2%nat = Some type2 ->
     Js.hasChar "~" type1 = false -> Js.hasChar "~" type2 = false ->
     (rowKey row1 = rowKey row2 ↔ coupon1 = coupon2 ∧ type1 = type2)) ∧
  (Forall hasKeyCells (dataRows table) ->
  ∃ table',
    rollupOlderVersions_change true table = (Returned tt, table') ∧
    (∀ i row key,
       dataRows table !! i = Some row ->
       rowKey row = Some key ->
       dataRows table' !! i =
         Some (if decide (key ∈ rowKeys (take i (dataRows table)))
               then css_display "none" row else row)) ∧
    (Forall (fun row => visible row = true) (dataRows table) ->
     visibleCount (dataRows table') =
       size (list_to_set (rowKeys (dataRows table)) : gset string) ∧
     ∀ i row key,
       dataRows table !! i = Some row ->
       rowKey row = Some key ->
       ∃ row', dataRows table' !! i = Some row' ∧
         cells row' = cells row ∧
         (visible row' = true ↔ key ∉ rowKeys (take i (dataRows table))))).
Proof.
  split.
  { intros row1 row2 coupon1 type1 coupon2 type2 Hc1 Ht1 Hc2 Ht2 Hn1 Hn2.
    unfold rowKey. rewrite Hc1, Ht1, Hc2, Ht2. split.
    - intros [= Heq]. by apply key_pair_inj.
    - by intros [-> ->]. }
  intros Hall. destruct table as [|header rows].
  { exists []. repeat split; try done. }
  cbn [dataRows tail] in *.
  exists (header :: (rollupRows true ∅ rows).2). cbn [dataRows tail].
  assert (Hlook : ∀ i row key,
    rows !! i = Some row -> rowKey row = Some key ->
    (rollupRows true ∅ rows).2 !! i =
      Some (if decide (key ∈ rowKeys (take i rows))
            then css_display "none" row else row)).
  { intros i row key Hi Hkey.
    rewrite (rollupRows_checked_lookup ∅ rows i row key Hall Hi Hkey).
    apply (f_equal Some).
    destruct (decide (key ∈ dom (∅ : gmap string bool) ∨ key ∈ rowKeys (take i rows)))
      as [Hd|Hd], (decide (key ∈ rowKeys (take i rows))) as [Hd'|Hd'];
      try done; exfalso.
    - destruct Hd as [Hd|Hd]; [|done].
      rewrite dom_empty_L in Hd. by apply elem_of_empty in Hd.
    - apply Hd. by right. }
  split; [|split].
  - rewrite rollupOlderVersions_change_cons.
    by rewrite (rollupRows_returns true ∅ rows Hall).
  - exact Hlook.
  - intros Hvis. split.
    + rewrite (rollupRows_checked_count ∅ rows Hall Hvis).
      f_equal. rewrite dom_empty_L. apply set_eq. intros x.
      rewrite elem_of_difference. split; [by intros [? _]|].
      intros ?. split; [done|]. apply not_elem_of_empty.
    + intros i row key Hi Hkey.
      rewrite (Hlook i row key Hi Hkey).
      assert (Hrow : visible row = true).
      { rewrite Forall_forall in Hvis. apply Hvis.
        by apply list_elem_of_lookup; exists i. }
      destruct (decide (key ∈ rowKeys (take i rows))) as [Hd|Hd].
      * eexists. split; [done|]. split; [done|].
        rewrite visible_hidden. split; [done | by intros []].
      * exists row. by repeat split.
Qed.

(** The rows [(A,1)], [(A,1)], [(B,1)] under a header: two rows stay
    shown. *)
Lemma rollup_collapse_keeps_first_witness :
  ∃ table',
    rollupOlderVersions_change true exampleTable = (Returned tt, table') ∧
    visibleCount (dataRows table') = 2%nat.
Proof.
  assert (Hall : Forall hasKeyCells (dataRows exampleTable)).
  { repeat constructor; by eexists. }
  destruct (rollup_collapse_keeps_first exampleTable) as [_ Hrows].
  destruct (Hrows Hall) as (table' & Hrun & _ & Hshown).
  exists table'. split; [exact Hrun|].
  destruct Hshown as [Hcount _]; [by repeat constructor|].
  rewrite Hcount. by vm_compute.
Defined.

(** C10.  Whatever the state of the box and whatever the table, the handler
    leaves the first row of the table as it is: only rows at index 1 and
    beyond can have their [display] changed, and no row is added or
    dropped. *)
Theorem rollup_header_untouched (checked : bool) (table : list Row) :
  (rollupOlderVersions_change checked table).2 !! 0%nat = table !! 0%nat ∧
  length (rollupOlderVersions_change checked table).2 = length table ∧
  (∀ i row row',
     table !! i = Some row ->
     (rollupOlderVersions_change checked table).2 !! i = Some row' ->
     display row' ≠ display row ->
     (1 <= i)%nat).
Proof.
  destruct table as [|header rows]; [by repeat split|].
  rewrite rollupOlderVersions_change_cons. cbn [snd].
  split; [done|]. split; [by cbn [length]; rewrite rollupRows_length|].
  intros [|i] row row' Hrow Hrow' Hne; [|lia].
  simpl in *. congruence.
Qed.

(** In the example table the third row is hidden by the roll-up; it sits at
    index 2. *)
Lemma rollup_header_untouched_witness :
  (rollupOlderVersions_change true exampleTable).2 !! 0%nat
    = Some (mkRow ["id"; "coupon"; "type"] "") ∧
  (1 <= 2)%nat.
Proof.
  destruct (rollup_header_untouched true exampleTable) as (Hhead & _ & Hframe).
  split; [exact Hhead|].
  by apply (Hframe 2%nat (mkRow ["2"; "A"; "1"] "") (mkRow ["2"; "A"; "1"] "none")).
Defined.

(** C6.  No run of the handler changes the cells of any row.  On a table
    whose data rows have their coupon and type cells: with the box unchecked
    every data row gets the empty [display] and is shown, whatever it was
    before; unchecking after checking gives the very table that unchecking
    alone gives, so every row hidden by the roll-up is shown again; and when
    the data rows are all shown at the start, checking again after that
    shows and hides the same rows as the first roll-up did. *)
Theorem rollup_toggle_reversible (table : list Row) :
  (∀ checked,
     cells <$> (rollupOlderVersions_change checked table).2 = cells <$> table) ∧
  (Forall hasKeyCells (dataRows table) ->
   ∃ shown collapsed restored again,
     rollupOlderVersions_change false table = (Returned tt, shown) ∧
     Forall (fun row => display row = "" ∧ visible row = true) (dataRows shown) ∧
     rollupOlderVersions_change true table = (Returned tt, collapsed) ∧
     rollupOlderVersions_change false collapsed = (Returned tt, restored) ∧
     restored = shown ∧
     (Forall (fun row => visible row = true) (dataRows table) ->
      visible <$> restored = visible <$> table) ∧
     rollupOlderVersions_change true restored = (Returned tt, again) ∧
     (Forall (fun row => visible row = true) (dataRows table) ->
      visible <$> again = visible <$> collapsed)).
Proof.
  split; [intros checked; apply rollupOlderVersions_change_cells|].
  intros Hall. destruct table as [|header rows].
  { exists [], [], [], []. by repeat split. }
  cbn [dataRows tail] in Hall.
  set (collapsedRows := (rollupRows true ∅ rows).2).
  assert (Hcells : cells <$> collapsedRows = cells <$> rows)
    by apply rollupRows_cells.
  assert (Hall' : Forall hasKeyCells collapsedRows)
    by by apply (Forall_hasKeyCells_cells rows).
  assert (Hshown : Forall hasKeyCells (css_display "" <$> rows)).
  { apply (Forall_hasKeyCells_cells rows); [|done].
    rewrite <- list_fmap_compose. by apply list_fmap_ext. }
  assert (Hvisible : Forall (fun row => display row = "" ∧ visible row = true)
                       (css_display "" <$> rows)).
  { apply Forall_fmap, Forall_forall. by intros. }
  exists (header :: (css_display "" <$> rows)),
         (header :: collapsedRows),
         (header :: (css_display "" <$> rows)),
         (header :: (rollupRows true ∅ (css_display "" <$> rows)).2).
  cbn [dataRows tail]. rewrite !rollupOlderVersions_change_cons.
  rewrite !rollupRows_returns by done.
  rewrite !rollupRows_unchecked by done.
  fold collapsedRows.
  rewrite (css_display_cells "" rows collapsedRows Hcells).
  repeat split; try done.
  - intros Hvis. rewrite !fmap_cons. f_equal.
    clear -Hvis. induction Hvis as [|row rows Hrow _ IH]; [done|].
    rewrite !fmap_cons. f_equal; [by rewrite Hrow | exact IH].
  - intros Hvis. rewrite !fmap_cons. f_equal.
    apply rollupRows_checked_visible_ext; try done.
    + rewrite <- list_fmap_compose. by apply list_fmap_ext.
    + eapply Forall_impl; [exact Hvisible|]. by intros ? [_ ?].
Qed.

(** The example table through the four steps: roll-up, unroll, roll-up. *)
Lemma rollup_toggle_reversible_witness :
  ∃ shown collapsed restored again,
    rollupOlderVersions_change false exampleTable = (Returned tt, shown) ∧
    rollupOlderVersions_change true exampleTable = (Returned tt, collapsed) ∧
    rollupOlderVersions_change false collapsed = (Returned tt, restored) ∧
    restored = shown ∧
    visible <$> restored = visible <$> exampleTable ∧
    rollupOlderVersions_change true restored = (Returned tt, again) ∧
    visible <$> again = visible <$> collapsed.
Proof.
  assert (Hall : Forall hasKeyCells (dataRows exampleTable)).
  { repeat constructor; by eexists. }
  assert (Hvis : Forall (fun row => visible row = true) (dataRows exampleTable)).
  { by repeat constructor. }
  destruct (rollup_toggle_reversible exampleTable) as [_ Hrun].
  destruct (Hrun Hall)
    as (shown & collapsed & restored & again & H1 & _ & H2 & H3 & H4 & H5 & H6 & H7).
  exists shown, collapsed, restored, again.
  repeat split; try assumption; [exact (H5 Hvis) | exact (H7 Hvis)].
Defined.

(** ** The date pattern *)

Section RegexpFacts.

Import Regexp.

Implicit Types (r : regexp) (s t : string) (c : ascii).

Lemma app_eq_empty s t : s +:+ t = "" -> s = "" ∧ t = "".
Proof. by destruct s. Qed.

Lemma lang_void_inv s : ¬ lang Void s.
Proof. inversion 1. Qed.

Lemma lang_eps_inv s : lang Eps s -> s = "".
Proof. by inversion 1. Qed.

Lemma lang_chr_inv a s : lang (Chr a) s -> s = String a "".
Proof. by inversion 1. Qed.

Lemma lang_range_inv lo hi s :
  lang (Range lo hi) s -> ∃ c, s = String c "" ∧ inRange lo hi c = true.
Proof. inversion 1; subst. by eexists. Qed.

Lemma lang_seq_inv r1 r2 s :
  lang (Seq r1 r2) s -> ∃ s1 s2, s = s1 +:+ s2 ∧ lang r1 s1 ∧ lang r2 s2.
Proof. inversion 1; subst. by eexists _, _. Qed.

Lemma lang_alt_inv r1 r2 s : lang (Alt r1 r2) s -> lang r1 s ∨ lang r2 s.
Proof. inversion 1; subst; auto. Qed.

(** [nullable] tells whether the empty string belongs to the pattern. *)
Lemma nullable_lang r : nullable r = true ↔ lang r "".
Proof.
  split.
  - induction r; simpl; try done.
    + intros _. constructor.
    + intros [H1 H2]%andb_true_iff.
      change "" with ("" +:+ ""). constructor; auto.
    + intros [H|H]%orb_true_iff; [apply lang_alt_l | apply lang_alt_r]; auto.
    + intros _. constructor.
  - intros H. remember "" as s eqn:Hs.
    induction H; simpl; try done.
    + apply app_eq_empty in Hs as [-> ->]. by rewrite IHlang1, IHlang2.
    + by rewrite IHlang.
    + rewrite IHlang by done. apply orb_true_r.
Qed.

(** The derivative by [c] stands for what may follow [c]. *)
Lemma deriv_lang c r s : lang (deriv c r) s ↔ lang r (String c s).
Proof.
  split.
  - revert s. induction r as [| |a|lo hi|r1 IH1 r2 IH2|r1 IH1 r2 IH2|r1 IH1];
      intros s; simpl.
    + by intros ?%lang_void_inv.
    + by intros ?%lang_void_inv.
    + destruct (Ascii.eqb_spec a c) as [->|]; [|by intros ?%lang_void_inv].
      intros ->%lang_eps_inv. constructor.
    + destruct (inRange lo hi c) eqn:Hin; [|by intros ?%lang_void_inv].
      intros ->%lang_eps_inv. by constructor.
    + destruct (nullable r1) eqn:Hnull.
      * intros [(s1 & s2 & -> & H1 & H2)%lang_seq_inv|H]%lang_alt_inv.
        -- change (String c (s1 +:+ s2)) with (String c s1 +:+ s2).
           constructor; auto.
        -- change (String c s) with ("" +:+ String c s).
           constructor; [by apply nullable_lang | auto].
      * intros (s1 & s2 & -> & H1 & H2)%lang_seq_inv.
        change (String c (s1 +:+ s2)) with (String c s1 +:+ s2).
        constructor; auto.
    + intros [H|H]%lang_alt_inv; [apply lang_alt_l | apply lang_alt_r]; auto.
    + intros (s1 & s2 & -> & H1 & H2)%lang_seq_inv.
      change (String c (s1 +:+ s2)) with (String c s1 +:+ s2).
      constructor; auto.
  - intros H. remember (String c s) as t eqn:Ht. revert s Ht.
    induction H as [|a|lo hi a Hin|r1 r2 s1 s2 H1 IH1 H2 IH2|r1 r2 s1 H1 IH1
                    |r1 r2 s1 H1 IH1| |r1 s1 s2 H1 IH1 H2 IH2];
      intros s Ht; simpl; try done.
    + injection Ht as -> <-. rewrite Ascii.eqb_refl. constructor.
    + injection Ht as -> <-. rewrite Hin. constructor.
    + destruct s1 as [|b s1].
      * rewrite app_empty_l in Ht. subst s2.
        rewrite (proj2 (nullable_lang r1) H1). apply lang_alt_r. by apply IH2.
      * rewrite app_cons in Ht. injection Ht as -> <-.
        destruct (nullable r1).
        -- apply lang_alt_l. constructor; [by apply IH1 | done].
        -- constructor; [by apply IH1 | done].
    + apply lang_alt_l. by apply IH1.
    + apply lang_alt_r. by apply IH1.
    + destruct s1 as [|b s1].
      * rewrite app_empty_l in Ht. by apply IH2.
      * rewrite app_cons in Ht. injection Ht as -> <-.
        constructor; [by apply IH1 | done].
Qed.

(** The matcher decides membership. *)
Lemma matches_lang r s : matches r s = true ↔ lang r s.
Proof.
  revert r. induction s as [|c s IH]; intros r; simpl.
  - apply nullable_lang.
  - by rewrite IH, deriv_lang.
Qed.

(** The group of the pattern stands for the dates. *)
Lemma dateGroup_lang s : lang dateGroup s ↔ isDate s = true.
Proof.
  split.
  - unfold dateGroup. simpl times. intros H.
    repeat match goal with
      | H : lang (Seq _ _) _ |- _ =>
          apply lang_seq_inv in H as (? & ? & -> & ? & ?)
      | H : lang (Range _ _) _ |- _ =>
          apply lang_range_inv in H as (? & -> & ?)
      | H : lang (Chr _) _ |- _ => apply lang_chr_inv in H as ->
      | H : lang Eps _ |- _ => apply lang_eps_inv in H as ->
      end.
    cbv [String.append]. cbn [isDate]. unfold isDigit.
    repeat match goal with H : inRange _ _ _ = true |- _ => rewrite H; clear H end.
    done.
  - destruct s as [|m1 [|m2 [|s1 [|d1 [|d2 [|s2 [|y1 [|y2 [|y3 [|y4 [|? ?]]]]]]]]]]];
      try done.
    simpl. unfold isDigit. rewrite !andb_true_iff.
    intros [[[[[[[[[? ?] ->%Ascii.eqb_eq] ?] ?] ->%Ascii.eqb_eq] ?] ?] ?] ?].
    change (lang dateGroup
      ((String m1 "" +:+ String m2 "" +:+ "") +:+ "/" +:+
       (String d1 "" +:+ String d2 "" +:+ "") +:+ "/" +:+
       (String y1 "" +:+ String y2 "" +:+ String y3 "" +:+ String y4 "" +:+ ""))).
    unfold dateGroup. simpl times.
    repeat first [apply lang_seq | by apply lang_range | apply lang_chr
                 | apply lang_eps].
Qed.

(** A starred group stands for dates written one after the other. *)
Lemma dateGroup_star_lang s :
  lang (Star dateGroup) s ↔
  ∃ dates, Forall (fun d => isDate d = true) dates ∧ s = concatAll dates.
Proof.
  split.
  - intros H. remember (Star dateGroup) as r eqn:Hr.
    induction H as [| | | | | | |r1 s1 s2 H1 _ H2 IH2]; try done.
    + by exists [].
    + injection Hr as ->. destruct (IH2 eq_refl) as (dates & Hall & ->).
      exists (s1 :: dates). split; [|done].
      constructor; [by apply dateGroup_lang | done].
  - intros (dates & Hall & ->).
    induction Hall as [|d dates Hd _ IH]; [constructor|].
    simpl. constructor; [by apply dateGroup_lang | done].
Qed.

(** The pattern accepts the strings made of one date or more. *)
Lemma datePattern_test s :
  test datePattern s = true ↔
  ∃ d dates,
    isDate d = true ∧ Forall (fun d' => isDate d' = true) dates ∧
    s = d +:+ concatAll dates.
Proof.
  unfold test, datePattern, plus. rewrite matches_lang. split.
  - intros (d & rest & -> & Hd & (dates & Hall & ->)%dateGroup_star_lang)
      %lang_seq_inv.
    exists d, dates. by rewrite <- dateGroup_lang.
  - intros (d & dates & Hd & Hall & ->).
    constructor; [by apply dateGroup_lang|].
    apply dateGroup_star_lang. by exists dates.
Qed.

End RegexpFacts.

(** ** The validation pass *)

Section Validation.

Variable momentFormat : string -> string.

Implicit Types (p : Page) (o : Field).

(** The value of a field is a string, so [Number.isNaN] never holds. *)
Lemma checkNumber_returns_true o n p : checkNumber o n p = (true, p).
Proof. done. Qed.

Lemma value_removeClass os p o : value (removeClass os p) o = value p o.
Proof. done. Qed.

(** Whether a check fails depends on the values of the fields only. *)
Lemma checkLength_removeClass os o n min max p :
  (checkLength o n min max (removeClass os p)).1 =
  (checkLength o n min max p).1.
Proof.
  unfold checkLength. rewrite value_removeClass.
  by destruct ((max <? Js.len (value p o)) || (Js.len (value p o) <? min)).
Qed.

Lemma checkRegexp_removeClass os o r n p :
  (checkRegexp o r n (removeClass os p)).1 = (checkRegexp o r n p).1.
Proof.
  unfold checkRegexp. rewrite value_removeClass.
  by destruct (Regexp.test r (value p o)).
Qed.

Lemma checkLength_true o n min max p :
  (checkLength o n min max p).1 = true -> checkLength o n min max p = (true, p).
Proof.
  unfold checkLength.
  by destruct ((max <? Js.len (value p o)) || (Js.len (value p o) <? min)).
Qed.

Lemma checkLength_false o n min max p :
  (checkLength o n min max p).1 = false ->
  checkLength o n min max p =
    (false, updateTips (lengthMessage n min max) (addClass o p)).
Proof.
  unfold checkLength.
  by destruct ((max <? Js.len (value p o)) || (Js.len (value p o) <? min)).
Qed.

Lemma checkRegexp_true o r n p :
  (checkRegexp o r n p).1 = true -> checkRegexp o r n p = (true, p).
Proof. unfold checkRegexp. by destruct (Regexp.test r (value p o)). Qed.

Lemma checkRegexp_false o r n p :
  (checkRegexp o r n p).1 = false ->
  checkRegexp o r n p = (false, updateTips n (addClass o p)).
Proof. unfold checkRegexp. by destruct (Regexp.test r (value p o)). Qed.

(** The pass when the length check fails: nothing after it runs. *)
Lemma saveNewPlan_length_fails p :
  (checkLength couponCode "Coupon Code" 3 128 p).1 = false ->
  saveNewPlan momentFormat p =
    (Returned false,
     (checkLength couponCode "Coupon Code" 3 128 (removeClass allFields p)).2).
Proof.
  intros Hfail. rewrite <- (checkLength_removeClass allFields) in Hfail.
  unfold saveNewPlan, andCheck.
  rewrite (checkLength_false _ _ _ _ _ Hfail). cbn [snd].
  by destruct (negb _).
Qed.

(** The pass when the length check passes and the date check fails. *)
Lemma saveNewPlan_date_fails p :
  (checkLength couponCode "Coupon Code" 3 128 p).1 = true ->
  Js.len (value p couponExpiresDate) ≠ 0 ->
  (checkRegexp couponExpiresDate datePattern dateMessage p).1 = false ->
  saveNewPlan momentFormat p =
    (Returned false,
     (checkRegexp couponExpiresDate datePattern dateMessage
        (removeClass allFields p)).2).
Proof.
  intros Hlen Hdate Hfail.
  rewrite <- (checkLength_removeClass allFields) in Hlen.
  rewrite <- (checkRegexp_removeClass allFields) in Hfail.
  unfold saveNewPlan, andCheck.
  rewrite (checkLength_true _ _ _ _ _ Hlen), !checkNumber_returns_true.
  rewrite value_removeClass.
  destruct (Z.eqb_spec (Js.len (value p couponExpiresDate)) 0); [done|].
  cbn [negb]. by rewrite (checkRegexp_false _ _ _ _ Hfail).
Qed.

(** The pass when every check that runs passes: one request is issued. *)
Lemma saveNewPlan_valid p expires :
  (checkLength couponCode "Coupon Code" 3 128 p).1 = true ->
  (Js.len (value p couponExpiresDate) = 0 ∧ expires = "" ∨
   Js.len (value p couponExpiresDate) ≠ 0 ∧
   (checkRegexp couponExpiresDate datePattern dateMessage p).1 = true ∧
   expires = momentFormat (value p couponExpiresDate)) ->
  ∃ listPrice discountedPrice,
    dollarsToCents (value p listPriceMonthlyCredit) = Some listPrice ∧
    dollarsToCents (value p discountedPriceMonthlyCredit) = Some discountedPrice ∧
    saveNewPlan momentFormat p =
      (Returned true,
       getJSON (origin p +:+ "/apis/v1/createNewPlan")
         (NewPlanData.make (value p couponCode) (value p planTypeEnum)
            (value p couponAppliedMessage) (value p hiddenPlanComment)
            listPrice discountedPrice (value p featuresProvidedBitmap)
            expires)
         (removeClass allFields p)).
Proof.
  intros Hlen Hdate.
  destruct (dollarsToCents_total (value p listPriceMonthlyCredit))
    as (listPrice & Hlist & _).
  destruct (dollarsToCents_total (value p discountedPriceMonthlyCredit))
    as (discountedPrice & Hdisc & _).
  exists listPrice, discountedPrice. repeat split; [done..|].
  rewrite <- (checkLength_removeClass allFields) in Hlen.
  unfold saveNewPlan, andCheck.
  rewrite (checkLength_true _ _ _ _ _ Hlen), !checkNumber_returns_true.
  rewrite value_removeClass.
  destruct Hdate as [[Hempty ->]|(Hfull & Hok & ->)].
  - rewrite Hempty. cbn [Z.eqb negb]. rewrite !value_removeClass.
    by rewrite Hlist, Hdisc.
  - destruct (Z.eqb_spec (Js.len (value p couponExpiresDate)) 0); [done|].
    cbn [negb].
    rewrite <- (checkRegexp_removeClass allFields) in Hok.
    rewrite (checkRegexp_true _ _ _ _ Hok). rewrite !value_removeClass.
    by rewrite Hlist, Hdisc.
Qed.

End Validation.

(** C3.  [checkNumber] hands the value of the field, a string, to
    [Number.isNaN], which converts nothing and holds of the number NaN only:
    the check accepts every field value, [abc] included, flags nothing and
    shows no message; a pass with the list price [abc] is valid and sends
    [abc00]. *)
Theorem checkNumber_accepts_every_string :
  (∀ (o : Field) (n : string) (p : Page),
     Number_isNaN (val p o) = false ∧ checkNumber o n p = (true, p)) ∧
  (∀ momentFormat,
     let p := examplePage "SAVE10" "abc" "9.5" "" in
     (checkNumber listPriceMonthlyCredit "List Price Monthly" p).1 = true ∧
     (saveNewPlan momentFormat p).1 = Returned true ∧
     NewPlanData.listPriceMonthlyCredit <$>
       ((fun '(GetJSON _ data) => data) <$> requests (saveNewPlan momentFormat p).2)
       = ["abc00"]).
Proof. split; [done|]. intros momentFormat. by vm_compute. Qed.

(** C4, as the code has it.  [valid = valid && check(...)] runs a check only
    while every check before it has passed.  When the length check of the
    coupon code fails, the page after the pass is the page after that check
    alone: its message is the one shown and the expiration field carries no
    flag, whatever the date field holds.  When the length check passes and
    the check of a non-empty date fails, the page after the pass is the page
    after the date check.  In both cases the message shown is that of the
    first check that fails, which is the only one that fails. *)
Theorem saveNewPlan_reports_first_failure
    (momentFormat : string -> string) (p : Page) :
  ((checkLength couponCode "Coupon Code" 3 128 p).1 = false ->
   saveNewPlan momentFormat p =
     (Returned false,
      (checkLength couponCode "Coupon Code" 3 128 (removeClass allFields p)).2) ∧
   tipsText (saveNewPlan momentFormat p).2 = lengthMessage "Coupon Code" 3 128 ∧
   hasError (saveNewPlan momentFormat p).2 couponCode = true ∧
   hasError (saveNewPlan momentFormat p).2 couponExpiresDate = false) ∧
  ((checkLength couponCode "Coupon Code" 3 128 p).1 = true ->
   Js.len (value p couponExpiresDate) ≠ 0 ->
   (checkRegexp couponExpiresDate datePattern dateMessage p).1 = false ->
   saveNewPlan momentFormat p =
     (Returned false,
      (checkRegexp couponExpiresDate datePattern dateMessage
         (removeClass allFields p)).2) ∧
   tipsText (saveNewPlan momentFormat p).2 = dateMessage ∧
   hasError (saveNewPlan momentFormat p).2 couponExpiresDate = true ∧
   hasError (saveNewPlan momentFormat p).2 couponCode = false).
Proof.
  split.
  - intros Hfail. rewrite (saveNewPlan_length_fails _ _ Hfail).
    split; [done|].
    rewrite <- (checkLength_removeClass allFields) in Hfail.
    rewrite (checkLength_false _ _ _ _ _ Hfail). by repeat split.
  - intros Hlen Hdate Hfail. rewrite (saveNewPlan_date_fails _ _ Hlen Hdate Hfail).
    split; [done|].
    rewrite <- (checkRegexp_removeClass allFields) in Hfail.
    rewrite (checkRegexp_false _ _ _ _ Hfail). by repeat split.
Qed.

(** A coupon code of two characters with a malformed date, and a good coupon
    code with a malformed date. *)
Lemma saveNewPlan_reports_first_failure_witness :
  tipsText (saveNewPlan (fun s => s) (examplePage "ab" "1" "1" "tomorrow")).2
    = "Length of Coupon Code must be between 3 and 128." ∧
  tipsText (saveNewPlan (fun s => s) (examplePage "SAVE10" "1" "1" "tomorrow")).2
    = "Expiration date must use this format: 12/25/2022".
Proof.
  split.
  - destruct (saveNewPlan_reports_first_failure (fun s => s)
                (examplePage "ab" "1" "1" "tomorrow")) as [Hfirst _].
    destruct Hfirst as (_ & Htips & _); [reflexivity | exact Htips].
  - destruct (saveNewPlan_reports_first_failure (fun s => s)
                (examplePage "SAVE10" "1" "1" "tomorrow")) as [_ Hdate].
    destruct Hdate as (_ & Htips & _);
      [reflexivity | by vm_compute | reflexivity | exact Htips].
Defined.

(** C4, as stated, fails: with the coupon code [ab] and the date [tomorrow]
    both the length check and the date check fail on the page, the date
    check being the last of the pass; yet the message left by the pass is
    that of the length check, and the date field is not flagged. *)
Lemma saveNewPlan_last_failure_counterexample :
  (checkLength couponCode "Coupon Code" 3 128
     (examplePage "ab" "1" "1" "tomorrow")).1 = false ∧
  Js.len (value (examplePage "ab" "1" "1" "tomorrow") couponExpiresDate) ≠ 0 ∧
  (checkRegexp couponExpiresDate datePattern dateMessage
     (examplePage "ab" "1" "1" "tomorrow")).1 = false ∧
  ∀ momentFormat,
    tipsText (saveNewPlan momentFormat (examplePage "ab" "1" "1" "tomorrow")).2
      ≠ dateMessage ∧
    tipsText (saveNewPlan momentFormat (examplePage "ab" "1" "1" "tomorrow")).2
      = lengthMessage "Coupon Code" 3 128 ∧
    hasError (saveNewPlan momentFormat (examplePage "ab" "1" "1" "tomorrow")).2
      couponExpiresDate = false.
Proof. by vm_compute. Qed.

(** C5.  The pattern ends in [+], so what it accepts is one date or several
    dates written one after the other, and nothing else.  With a coupon code
    of valid length and two dates in a row in the expiration field, the pass
    is valid, hands the whole field to [moment] and issues the request.  So
    it does for the twenty characters [12/25/202212/25/2022]. *)
Theorem saveNewPlan_accepts_repeated_date :
  (∀ s : string,
     Regexp.test datePattern s = true ↔
     ∃ d dates,
       isDate d = true ∧ Forall (fun d' => isDate d' = true) dates ∧
       s = d +:+ concatAll dates) ∧
  (∀ (momentFormat : string -> string) (p : Page) (d1 d2 : string),
     isDate d1 = true ->
     isDate d2 = true ->
     (checkLength couponCode "Coupon Code" 3 128 p).1 = true ->
     value p couponExpiresDate = d1 +:+ d2 ->
     ∃ listPrice discountedPrice,
       saveNewPlan momentFormat p =
         (Returned true,
          getJSON (origin p +:+ "/apis/v1/createNewPlan")
            (NewPlanData.make (value p couponCode) (value p planTypeEnum)
               (value p couponAppliedMessage) (value p hiddenPlanComment)
               listPrice discountedPrice (value p featuresProvidedBitmap)
               (momentFormat (d1 +:+ d2)))
            (removeClass allFields p))) ∧
  Regexp.test datePattern "12/25/2022" = true ∧
  Regexp.test datePattern "1/25/2022" = false ∧
  Regexp.test datePattern "12/25/202212/25/2022" = true ∧
  (∀ momentFormat,
     (saveNewPlan momentFormat
        (examplePage "SAVE10" "19.99" "9.5" "12/25/202212/25/2022")).1
       = Returned true ∧
     NewPlanData.couponExpiresDate <$>
       ((fun '(GetJSON _ data) => data) <$>
          requests (saveNewPlan momentFormat
            (examplePage "SAVE10" "19.99" "9.5" "12/25/202212/25/2022")).2)
       = [momentFormat "12/25/202212/25/2022"]).
Proof.
  split; [exact datePattern_test|]. split; [|by vm_compute].
  intros momentFormat p d1 d2 Hd1 Hd2 Hlen Hdate.
  destruct (saveNewPlan_valid momentFormat p (momentFormat (d1 +:+ d2)))
    as (listPrice & discountedPrice & _ & _ & Hrun); [done| |by eauto].
  right. rewrite Hdate. repeat split.
  - destruct d1; [done|]. rewrite app_cons. unfold Js.len. simpl. lia.
  - unfold checkRegexp. rewrite Hdate.
    assert (Regexp.test datePattern (d1 +:+ d2) = true) as ->; [|done].
    apply datePattern_test. exists d1, [d2]. repeat split; [done|by constructor|].
    simpl. by rewrite app_empty_r.
Qed.

(** Christmas and New Year's Eve in a row. *)
Lemma saveNewPlan_accepts_repeated_date_witness :
  ∃ listPrice discountedPrice p',
    saveNewPlan (fun s => s)
      (examplePage "SAVE10" "19.99" "9.5" ("12/25/2022" +:+ "12/31/2022")) =
      (Returned true, p') ∧
    requests p' =
      [GetJSON "https://api.example.org/apis/v1/createNewPlan"
         (NewPlanData.make "SAVE10" "" "" "" listPrice discountedPrice ""
            "12/25/202212/31/2022")].
Proof.
  destruct saveNewPlan_accepts_repeated_date as (_ & Hrun & _).
  destruct (Hrun (fun s => s)
              (examplePage "SAVE10" "19.99" "9.5" ("12/25/2022" +:+ "12/31/2022"))
              "12/25/2022" "12/31/2022")
    as (listPrice & discountedPrice & Hsave); [reflexivity..|].
  exists listPrice, discountedPrice. eexists. split; [exact Hsave|]. reflexivity.
Defined.

(** C7.  With the coupon code [SAVE10], the list price [19.99], the
    discounted price [9.5] and no expiration date, whatever the other fields
    hold, the pass is valid, flags no field, leaves the tips as they are and
    adds exactly one request, to [createNewPlan], whose list price is [1999],
    whose discounted price is [950] and whose expiration date is the empty
    string. *)
Theorem saveNewPlan_example_request
    (momentFormat : string -> string) (p : Page) :
  value p couponCode = "SAVE10" ->
  value p listPriceMonthlyCredit = "19.99" ->
  value p discountedPriceMonthlyCredit = "9.5" ->
  value p couponExpiresDate = "" ->
  ∃ p',
    saveNewPlan momentFormat p = (Returned true, p') ∧
    requests p' =
      requests p ++
      [GetJSON (origin p +:+ "/apis/v1/createNewPlan")
         (NewPlanData.make "SAVE10" (value p planTypeEnum)
            (value p couponAppliedMessage) (value p hiddenPlanComment)
            "1999" "950" (value p featuresProvidedBitmap) "")] ∧
    tipsText p' = tipsText p ∧
    (∀ o, o ∈ allFields -> hasError p' o = false).
Proof.
  intros Hcoupon Hlist Hdisc Hdate.
  destruct (saveNewPlan_valid momentFormat p "")
    as (listPrice & discountedPrice & Hl & Hd & Hrun).
  { unfold checkLength. by rewrite Hcoupon. }
  { left. by rewrite Hdate. }
  rewrite Hlist in Hl. rewrite Hdisc in Hd.
  vm_compute in Hl, Hd. injection Hl as <-. injection Hd as <-.
  eexists. split; [exact Hrun|]. rewrite Hcoupon. repeat split.
  intros o Ho. simpl. by rewrite decide_True.
Qed.

(** The page with these four values and nothing else. *)
Lemma saveNewPlan_example_request_witness :
  ∃ p',
    saveNewPlan (fun s => s) (examplePage "SAVE10" "19.99" "9.5" "") =
      (Returned true, p') ∧
    requests p' =
      [GetJSON "https://api.example.org/apis/v1/createNewPlan"
         (NewPlanData.make "SAVE10" "" "" "" "1999" "950" "" "")].
Proof.
  destruct (saveNewPlan_example_request (fun s => s)
              (examplePage "SAVE10" "19.99" "9.5" ""))
    as (p' & Hrun & Hreq & _); [reflexivity..|].
  exists p'. split; [exact Hrun | exact Hreq].
Defined.

(** C8.  When a check of the pass fails (the length check of the coupon
    code, a number check, or the pattern check of a non-empty date) the pass
    answers invalid and issues no request; the field of the first failing
    check carries the error class and its message is in the tips, which are
    highlighted.  A coupon code of two characters fails the length check. *)
Theorem saveNewPlan_rejects_failed_check
    (momentFormat : string -> string) (p : Page) :
  ((checkLength couponCode "Coupon Code" 3 128 p).1 = false ∨
   (checkNumber listPriceMonthlyCredit "List Price Monthly" p).1 = false ∨
   (checkNumber discountedPriceMonthlyCredit "Discounted Price Monthly" p).1
     = false ∨
   (Js.len (value p couponExpiresDate) ≠ 0 ∧
    (checkRegexp couponExpiresDate datePattern dateMessage p).1 = false) ->
   ∃ p' o message,
     saveNewPlan momentFormat p = (Returned false, p') ∧
     requests p' = requests p ∧
     hasError p' o = true ∧
     tipsText p' = message ∧
     tipsHighlight p' = true ∧
     ((checkLength couponCode "Coupon Code" 3 128 p).1 = false ∧
      o = couponCode ∧ message = lengthMessage "Coupon Code" 3 128
      ∨
      (checkLength couponCode "Coupon Code" 3 128 p).1 = true ∧
      o = couponExpiresDate ∧ message = dateMessage)) ∧
  (String.length (value p couponCode) = 2%nat ->
   (checkLength couponCode "Coupon Code" 3 128 p).1 = false).
Proof.
  split.
  - intros Hfail.
    destruct ((checkLength couponCode "Coupon Code" 3 128 p).1) eqn:Hlen.
    + destruct Hfail as [?|[Hnum|[Hnum|[Hdate Hre]]]]; try done.
      pose proof Hre as Hre'.
      rewrite <- (checkRegexp_removeClass allFields) in Hre'.
      exists (checkRegexp couponExpiresDate datePattern dateMessage
                (removeClass allFields p)).2, couponExpiresDate, dateMessage.
      rewrite (saveNewPlan_date_fails _ _ Hlen Hdate Hre).
      rewrite (checkRegexp_false _ _ _ _ Hre'). repeat split. by right.
    + pose proof Hlen as Hlen'.
      rewrite <- (checkLength_removeClass allFields) in Hlen'.
      exists (checkLength couponCode "Coupon Code" 3 128
                (removeClass allFields p)).2, couponCode,
             (lengthMessage "Coupon Code" 3 128).
      rewrite (saveNewPlan_length_fails _ _ Hlen).
      rewrite (checkLength_false _ _ _ _ _ Hlen'). repeat split. by left.
  - intros Htwo. unfold checkLength, Js.len. by rewrite Htwo.
Qed.

(** The coupon code [ab]. *)
Lemma saveNewPlan_rejects_failed_check_witness :
  ∃ p',
    saveNewPlan (fun s => s) (examplePage "ab" "19.99" "9.5" "") =
      (Returned false, p') ∧
    requests p' = [] ∧
    hasError p' couponCode = true ∧
    tipsText p' = "Length of Coupon Code must be between 3 and 128.".
Proof.
  destruct (saveNewPlan_rejects_failed_check (fun s => s)
              (examplePage "ab" "19.99" "9.5" "")) as [Hfail Htwo].
  destruct Hfail as (p' & o & message & Hrun & Hreq & Herr & Htips & _ & Hwhich).
  { left. apply Htwo. reflexivity. }
  exists p'. destruct Hwhich as [(_ & -> & ->)|(Hlen & _ & _)].
  - repeat split; assumption.
  - exfalso. revert Hlen. by vm_compute.
Defined.

(** * Further properties of the code *)

(** ** The validation pass as a whole *)

Section PassFacts.

Variable momentFormat : string -> string.

Implicit Types (p : Page) (o : Field).

Lemma checkLength_fst o n min max p :
  (checkLength o n min max p).1 = true ↔ min <= Js.len (value p o) <= max.
Proof.
  unfold checkLength.
  destruct (Z.ltb_spec max (Js.len (value p o))),
           (Z.ltb_spec (Js.len (value p o)) min); simpl; split; try done; lia.
Qed.

Lemma checkRegexp_fst o r n p :
  (checkRegexp o r n p).1 = Regexp.test r (value p o).
Proof. unfold checkRegexp. by destruct (Regexp.test r (value p o)). Qed.

Lemma len_empty_iff s : Js.len s = 0 ↔ s = "".
Proof. split; [apply len_zero | by intros ->]. Qed.

(** The three ways a pass can go. *)
Lemma saveNewPlan_cases p :
  ((checkLength couponCode "Coupon Code" 3 128 p).1 = false ∧
   saveNewPlan momentFormat p =
     (Returned false,
      updateTips (lengthMessage "Coupon Code" 3 128)
        (addClass couponCode (removeClass allFields p)))) ∨
  ((checkLength couponCode "Coupon Code" 3 128 p).1 = true ∧
   value p couponExpiresDate ≠ "" ∧
   Regexp.test datePattern (value p couponExpiresDate) = false ∧
   saveNewPlan momentFormat p =
     (Returned false,
      updateTips dateMessage
        (addClass couponExpiresDate (removeClass allFields p)))) ∨
  ((checkLength couponCode "Coupon Code" 3 128 p).1 = true ∧
   ∃ expires listPrice discountedPrice,
     (value p couponExpiresDate = "" ∧ expires = "" ∨
      value p couponExpiresDate ≠ "" ∧
      Regexp.test datePattern (value p couponExpiresDate) = true ∧
      expires = momentFormat (value p couponExpiresDate)) ∧
     dollarsToCents (value p listPriceMonthlyCredit) = Some listPrice ∧
     dollarsToCents (value p discountedPriceMonthlyCredit) = Some discountedPrice ∧
     saveNewPlan momentFormat p =
       (Returned true,
        getJSON (origin p +:+ "/apis/v1/createNewPlan")
          (NewPlanData.make (value p couponCode) (value p planTypeEnum)
             (value p couponAppliedMessage) (value p hiddenPlanComment)
             listPrice discountedPrice (value p featuresProvidedBitmap)
             expires)
          (removeClass allFields p))).
Proof.
  destruct ((checkLength couponCode "Coupon Code" 3 128 p).1) eqn:Hlen.
  - destruct (decide (value p couponExpiresDate = "")) as [Hdate|Hdate].
    + right; right. split; [done|].
      destruct (saveNewPlan_valid momentFormat p "" Hlen)
        as (lp & dp & Hl & Hd & Hrun).
      { left. by rewrite Hdate. }
      exists "", lp, dp. repeat split; auto.
    + destruct (Regexp.test datePattern (value p couponExpiresDate)) eqn:Hre.
      * right; right. split; [done|].
        destruct (saveNewPlan_valid momentFormat p
                    (momentFormat (value p couponExpiresDate)) Hlen)
          as (lp & dp & Hl & Hd & Hrun).
        { right. rewrite len_empty_iff, checkRegexp_fst. by repeat split. }
        exists (momentFormat (value p couponExpiresDate)), lp, dp.
        repeat split; auto.
      * right; left. repeat split; try done.
        assert (Hfail : (checkRegexp couponExpiresDate datePattern dateMessage p).1
                        = false) by by rewrite checkRegexp_fst.
        rewrite (saveNewPlan_date_fails momentFormat p Hlen); [|by rewrite len_empty_iff|done].
        rewrite <- (checkRegexp_removeClass allFields) in Hfail.
        by rewrite (checkRegexp_false _ _ _ _ Hfail).
  - left. split; [done|].
    rewrite (saveNewPlan_length_fails momentFormat p Hlen).
    rewrite <- (checkLength_removeClass allFields) in Hlen.
    by rewrite (checkLength_false _ _ _ _ _ Hlen).
Qed.

End PassFacts.

(** X1.  A pass never raises, and it is valid exactly when the coupon code
    has between 3 and 128 characters and the expiration field is empty or
    accepted by the date pattern; the two prices, whatever they hold, play no
    part. *)
Theorem saveNewPlan_valid_iff (momentFormat : string -> string) (p : Page) :
  ((saveNewPlan momentFormat p).1 = Returned true ∨
   (saveNewPlan momentFormat p).1 = Returned false) ∧
  ((saveNewPlan momentFormat p).1 = Returned true ↔
   3 <= Js.len (value p couponCode) <= 128 ∧
   (value p couponExpiresDate = "" ∨
    Regexp.test datePattern (value p couponExpiresDate) = true)).
Proof.
  destruct (saveNewPlan_cases momentFormat p)
    as [[Hlen ->]|[(Hlen & Hdate & Hre & ->)|(Hlen & e & lp & dp & Hdate & _ & _ & ->)]];
    cbn [fst].
  - split; [by right|]. split; [done|]. intros [Hok _].
    apply (checkLength_fst couponCode "Coupon Code") in Hok. congruence.
  - split; [by right|]. split; [done|]. intros [_ [?|?]]; congruence.
  - split; [by left|]. split; [|done]. intros _.
    split; [by apply (checkLength_fst couponCode "Coupon Code")|].
    destruct Hdate as [[? _]|(_ & ? & _)]; auto.
Qed.

(** X2.  A pass writes no field and keeps the requests already issued: it
    adds one request to [createNewPlan] when it is valid and none when it is
    not.  A valid pass leaves the tips as they were, the text of an earlier
    failure included. *)
Theorem saveNewPlan_frame (momentFormat : string -> string) (p : Page) :
  (∀ o, value (saveNewPlan momentFormat p).2 o = value p o) ∧
  origin (saveNewPlan momentFormat p).2 = origin p ∧
  (∃ new,
     requests (saveNewPlan momentFormat p).2 = requests p ++ new ∧
     ((saveNewPlan momentFormat p).1 = Returned true ->
      ∃ data, new = [GetJSON (origin p +:+ "/apis/v1/createNewPlan") data]) ∧
     ((saveNewPlan momentFormat p).1 = Returned false -> new = [])) ∧
  ((saveNewPlan momentFormat p).1 = Returned true ->
   tipsText (saveNewPlan momentFormat p).2 = tipsText p ∧
   tipsHighlight (saveNewPlan momentFormat p).2 = tipsHighlight p ∧
   timeouts (saveNewPlan momentFormat p).2 = timeouts p).
Proof.
  destruct (saveNewPlan_cases momentFormat p)
    as [[Hlen ->]|[(Hlen & Hdate & Hre & ->)|(Hlen & e & lp & dp & Hdate & _ & _ & ->)]];
    cbn [fst snd].
  - repeat split; try done. exists []. by rewrite app_nil_r.
  - repeat split; try done. exists []. by rewrite app_nil_r.
  - repeat split; try done. eexists. split; [done|]. split; [by eauto|done].
Qed.

(** A valid page and a page with a short coupon code. *)
Lemma saveNewPlan_frame_witness :
  length (requests (saveNewPlan (fun s => s)
                      (examplePage "SAVE10" "20" "10" "")).2) = 1%nat ∧
  length (requests (saveNewPlan (fun s => s)
                      (examplePage "S" "20" "10" "")).2) = 0%nat.
Proof.
  split.
  - destruct (saveNewPlan_frame (fun s => s) (examplePage "SAVE10" "20" "10" ""))
      as (_ & _ & (new & -> & Hvalid & _) & _).
    destruct Hvalid as [data ->]; reflexivity.
  - destruct (saveNewPlan_frame (fun s => s) (examplePage "S" "20" "10" ""))
      as (_ & _ & (new & -> & _ & Hinvalid) & _).
    rewrite Hinvalid; reflexivity.
Defined.

(** X3.  After a pass the error class sits on no field when the pass is
    valid, on the coupon code alone when its length is out of bounds, and on
    the expiration date alone otherwise: the flags of earlier passes are
    gone, and two fields are never flagged together. *)
Theorem saveNewPlan_flags (momentFormat : string -> string) (p : Page) :
  flagged (saveNewPlan momentFormat p).2 =
    if decide (3 <= Js.len (value p couponCode) <= 128) then
      if decide (value p couponExpiresDate = "" ∨
                 Regexp.test datePattern (value p couponExpiresDate) = true)
      then [] else [couponExpiresDate]
    else [couponCode].
Proof.
  destruct (saveNewPlan_cases momentFormat p)
    as [[Hlen ->]|[(Hlen & Hdate & Hre & ->)|(Hlen & e & lp & dp & Hdate & _ & _ & ->)]];
    cbn [snd].
  - rewrite decide_False; [done|]. intros Hok.
    apply (checkLength_fst couponCode "Coupon Code") in Hok. congruence.
  - apply (checkLength_fst couponCode "Coupon Code") in Hlen.
    rewrite decide_True by done. rewrite decide_False; [done|].
    intros [?|?]; congruence.
  - apply (checkLength_fst couponCode "Coupon Code") in Hlen.
    rewrite decide_True by done. rewrite decide_True; [done|].
    destruct Hdate as [[? _]|(_ & ? & _)]; auto.
Qed.

(** X4.  The request of a valid pass carries the coupon code, the plan type,
    the two messages and the feature bitmap as the fields hold them; its
    coupon code has between 3 and 128 characters; each of its prices is the
    price field through [dollarsToCents] and holds no decimal point; its
    expiration date is the empty string when the field is empty and the
    formatted field otherwise. *)
Theorem saveNewPlan_payload (momentFormat : string -> string) (p : Page) :
  (saveNewPlan momentFormat p).1 = Returned true ->
  ∃ data,
    requests (saveNewPlan momentFormat p).2 =
      requests p ++ [GetJSON (origin p +:+ "/apis/v1/createNewPlan") data] ∧
    NewPlanData.couponCode data = value p couponCode ∧
    3 <= Js.len (NewPlanData.couponCode data) <= 128 ∧
    NewPlanData.planTypeEnum data = value p planTypeEnum ∧
    NewPlanData.couponAppliedMessage data = value p couponAppliedMessage ∧
    NewPlanData.hiddenPlanComment data = value p hiddenPlanComment ∧
    NewPlanData.featuresProvidedBitmap data = value p featuresProvidedBitmap ∧
    dollarsToCents (value p listPriceMonthlyCredit)
      = Some (NewPlanData.listPriceMonthlyCredit data) ∧
    dollarsToCents (value p discountedPriceMonthlyCredit)
      = Some (NewPlanData.discountedPriceMonthlyCredit data) ∧
    Js.hasChar "." (NewPlanData.listPriceMonthlyCredit data) = false ∧
    Js.hasChar "." (NewPlanData.discountedPriceMonthlyCredit data) = false ∧
    NewPlanData.couponExpiresDate data =
      (if decide (value p couponExpiresDate = "") then ""
       else momentFormat (value p couponExpiresDate)).
Proof.
  destruct (saveNewPlan_cases momentFormat p)
    as [[Hlen ->]|[(Hlen & Hdate & Hre & ->)|(Hlen & e & lp & dp & Hdate & Hl & Hd & ->)]];
    cbn [fst snd]; try done.
  intros _. eexists. split; [done|]. cbn.
  apply (checkLength_fst couponCode "Coupon Code") in Hlen.
  destruct (dollarsToCents_total (value p listPriceMonthlyCredit))
    as (lp' & Hl' & Hnl).
  destruct (dollarsToCents_total (value p discountedPriceMonthlyCredit))
    as (dp' & Hd' & Hnd).
  assert (lp' = lp) as -> by congruence. assert (dp' = dp) as -> by congruence.
  repeat split; try done; try lia.
  destruct Hdate as [[Hempty ->]|(Hfull & _ & ->)].
  - by rewrite decide_True.
  - by rewrite decide_False.
Qed.

(** A price with three decimals and a date. *)
Lemma saveNewPlan_payload_witness :
  ∃ data,
    requests (saveNewPlan (fun s => "<" +:+ s +:+ ">")
                (examplePage "SAVE10" "19.999" "5" "12/25/2022")).2
      = [GetJSON "https://api.example.org/apis/v1/createNewPlan" data] ∧
    NewPlanData.listPriceMonthlyCredit data = "1999" ∧
    NewPlanData.discountedPriceMonthlyCredit data = "500" ∧
    NewPlanData.couponExpiresDate data = "<12/25/2022>".
Proof.
  destruct (saveNewPlan_payload (fun s => "<" +:+ s +:+ ">")
              (examplePage "SAVE10" "19.999" "5" "12/25/2022"))
    as (data & Hreq & _ & _ & _ & _ & _ & _ & Hl & Hd & _ & _ & He);
    [reflexivity|].
  exists data. split; [exact Hreq|].
  change (Some "1999" = Some (NewPlanData.listPriceMonthlyCredit data)) in Hl.
  change (Some "500" = Some (NewPlanData.discountedPriceMonthlyCredit data)) in Hd.
  change (NewPlanData.couponExpiresDate data = "<12/25/2022>") in He.
  injection Hl as Hl. injection Hd as Hd. by repeat split.
Defined.

(** ** The currency normalizer on numbers *)

Section CentsFacts.

Implicit Types (s t : string) (c : ascii).

Lemma len_app s t : Js.len (s +:+ t) = Js.len s + Js.len t.
Proof. unfold Js.len. rewrite length_app'. lia. Qed.

Lemma len_cons c s : Js.len (String c s) = 1 + Js.len s.
Proof. unfold Js.len. simpl String.length. lia. Qed.

Lemma isDigit_value c :
  isDigit c = true -> 0 <= Z.of_N (N_of_ascii c) - 48 <= 9.
Proof.
  unfold isDigit, Regexp.inRange. intros [H1 H2]%andb_true_iff.
  apply N.leb_le in H1, H2.
  change (N_of_ascii "0") with 48%N in H1.
  change (N_of_ascii "9") with 57%N in H2. lia.
Qed.

Lemma isDigit_not_point c : isDigit c = true -> Ascii.eqb c "." = false.
Proof. destruct (Ascii.eqb_spec c "."%char) as [->|]; [by vm_compute|done]. Qed.

Lemma allDigits_no_point s : allDigits s = true -> Js.hasChar "." s = false.
Proof.
  induction s as [|c s IH]; [done|]. simpl.
  intros [Hc Hs]%andb_true_iff. by rewrite (isDigit_not_point c Hc), IH.
Qed.

Lemma allDigits_app s t : allDigits (s +:+ t) = allDigits s && allDigits t.
Proof.
  induction s as [|c s IH]; [done|]. rewrite app_cons. simpl.
  by rewrite IH, andb_assoc.
Qed.

Lemma digitsValueFrom_acc acc s :
  digitsValueFrom acc s = acc * 10 ^ Js.len s + digitsValue s.
Proof.
  unfold digitsValue. revert acc.
  induction s as [|c s IH]; intros acc; [simpl; unfold Js.len; simpl; lia|].
  cbn [digitsValueFrom]. rewrite (IH (10 * acc + _)), (IH (10 * 0 + _)).
  rewrite len_cons, Z.pow_add_r by (pose proof (len_nonneg s); lia). lia.
Qed.

Lemma digitsValue_cons c s :
  digitsValue (String c s) =
    (Z.of_N (N_of_ascii c) - 48) * 10 ^ Js.len s + digitsValue s.
Proof.
  unfold digitsValue at 1. cbn [digitsValueFrom].
  rewrite digitsValueFrom_acc. lia.
Qed.

Lemma digitsValue_app s t :
  digitsValue (s +:+ t) = digitsValue s * 10 ^ Js.len t + digitsValue t.
Proof.
  induction s as [|c s IH];
    [rewrite app_empty_l; change (digitsValue "") with 0; lia|].
  rewrite app_cons, !digitsValue_cons, IH, len_app.
  rewrite Z.pow_add_r by apply len_nonneg. lia.
Qed.

Lemma digitsValue_bound s :
  allDigits s = true -> 0 <= digitsValue s < 10 ^ Js.len s.
Proof.
  induction s as [|c s IH]; [by vm_compute|].
  simpl. intros [Hc Hs]%andb_true_iff.
  apply isDigit_value in Hc. specialize (IH Hs).
  rewrite digitsValue_cons, len_cons.
  rewrite Z.pow_add_r by (pose proof (len_nonneg s); lia). nia.
Qed.

(** The three shapes of an answer. *)
Lemma dollarsToCents_shape cost :
  (cost = "" ∧ dollarsToCents cost = Some "") ∨
  (∃ D F tl,
     Js.hasChar "." cost = true ∧ Js.split "." cost = D :: F :: tl ∧
     Js.hasChar "." D = false ∧ Js.hasChar "." F = false ∧
     dollarsToCents cost = Some (D +:+ twoDigits F)) ∨
  (cost ≠ "" ∧ Js.hasChar "." cost = false ∧
   dollarsToCents cost = Some (cost +:+ "00")).
Proof.
  destruct cost as [|c s]; [by left|]. right.
  destruct (Js.hasChar "." (String c s)) eqn:Hpoint.
  - left. pose proof (splitParts_shape "." (String c s)) as (Hhd & Htl & Hne).
    specialize (Hne Hpoint).
    destruct (Js.splitParts "." (String c s)) as [hd tl0] eqn:Hsp.
    cbn [fst snd] in Hhd, Htl, Hne.
    destruct tl0 as [|F tl]; [done|]. inversion Htl; subst.
    assert (Hsplit : Js.split "." (String c s) = hd :: F :: tl)
      by (unfold Js.split; by rewrite Hsp).
    exists hd, F, tl. repeat split; try done.
    by apply dollarsToCents_split with tl.
  - right. repeat split; [done|].
    unfold dollarsToCents. rewrite app_empty_r.
    destruct (Z.eqb_spec (Js.len (String c s)) 0) as [Hlen|_];
      [by apply len_zero in Hlen|].
    by rewrite indexOf_char_nonneg, Hpoint.
Qed.

End CentsFacts.

(** X5.  On an amount written with digits, [D.F], the answer is a string of
    digits, two longer than [D], whose number is the whole part of one
    hundred times the amount: what lies beyond the second decimal is cut off
    and never rounds the cents up.  It is one hundred times the amount when
    there are at most two decimals. *)
Theorem dollarsToCents_truncates (D F : string) :
  allDigits D = true ->
  allDigits F = true ->
  ∃ r,
    dollarsToCents (D +:+ "." +:+ F) = Some r ∧
    allDigits r = true ∧
    String.length r = (String.length D + 2)%nat ∧
    digitsValue r * 10 ^ Js.len F
      <= 100 * (digitsValue D * 10 ^ Js.len F + digitsValue F)
      < (digitsValue r + 1) * 10 ^ Js.len F ∧
    (Js.len F <= 2 ->
     digitsValue r * 10 ^ Js.len F =
       100 * (digitsValue D * 10 ^ Js.len F + digitsValue F)).
Proof.
  intros HD HF. exists (D +:+ twoDigits F).
  assert (Hrun : dollarsToCents (D +:+ "." +:+ F) = Some (D +:+ twoDigits F)).
  { change ("." +:+ F) with (String "." F).
    destruct (split_point "." D F "") as [tl Hsplit];
      [by apply allDigits_no_point.. | by left |].
    rewrite app_empty_r in Hsplit.
    apply dollarsToCents_split with tl; [|done].
    rewrite hasChar_app. simpl. by rewrite orb_true_r. }
  split; [done|].
  pose proof (digitsValue_bound D HD) as HbD.
  rewrite digitsValue_app, length_app', twoDigits_length.
  replace (Js.len (twoDigits F)) with 2
    by (unfold Js.len; by rewrite twoDigits_length).
  destruct F as [|a [|b G]].
  - change (twoDigits "") with "00". rewrite allDigits_app, HD.
    change (digitsValue "00") with 0. change (digitsValue "") with 0.
    change (Js.len "") with 0. change (10 ^ 0) with 1.
    repeat split; try done; lia.
  - simpl in HF. apply andb_true_iff in HF as [Ha _].
    pose proof (isDigit_value a Ha) as Hva.
    change (twoDigits (String a "")) with (String a "0").
    rewrite allDigits_app, HD. simpl allDigits. rewrite Ha.
    rewrite !digitsValue_cons.
    change (digitsValue "") with 0. change (Js.len "") with 0.
    change (Js.len "0") with 1. change (Js.len (String a "")) with 1.
    change (Z.of_N (N_of_ascii "0") - 48) with 0.
    repeat split; try done; lia.
  - simpl in HF. apply andb_true_iff in HF as [Ha HF].
    apply andb_true_iff in HF as [Hb HG].
    pose proof (isDigit_value a Ha) as Hva.
    pose proof (isDigit_value b Hb) as Hvb.
    pose proof (digitsValue_bound G HG) as HbG.
    pose proof (len_nonneg G) as HlG.
    assert (Htwo : twoDigits (String a (String b G)) = String a (String b "")).
    { unfold twoDigits. destruct G as [|g G]; [done|].
      destruct (Z.ltb_spec 2 (Js.len (String a (String b (String g G)))))
        as [|Hge]; [done|].
      rewrite !len_cons in Hge. pose proof (len_nonneg G). lia. }
    rewrite Htwo, allDigits_app, HD. simpl allDigits. rewrite Ha, Hb.
    rewrite !digitsValue_cons, !len_cons.
    change (digitsValue "") with 0. change (Js.len "") with 0.
    rewrite !Z.pow_add_r by lia.
    change (10 ^ 1) with 10. change (10 ^ 0) with 1.
    set (T := 10 ^ Js.len G) in *.
    repeat split; try done; try nia.
    intros Hshort. assert (Js.len G = 0) as HG0 by lia.
    apply len_zero in HG0. subst G. vm_compute in T. subst T.
    change (digitsValue "") with 0. lia.
Qed.

(** The amount [19.999]: 1999 cents, not 2000. *)
Lemma dollarsToCents_truncates_witness :
  ∃ r, dollarsToCents "19.999" = Some r ∧ digitsValue r = 1999.
Proof.
  destruct (dollarsToCents_truncates "19" "999") as (r & Hrun & _ & _ & Hb & _);
    [reflexivity..|].
  exists r. split; [exact Hrun|].
  change (Js.len "999") with 3 in Hb.
  change (digitsValue "19") with 19 in Hb.
  change (digitsValue "999") with 999 in Hb.
  change (10 ^ 3) with 1000 in Hb. lia.
Defined.

(** X6.  The function is not idempotent: applied to an answer of its own
    that is not empty, it appends [00] once more; and its answer is empty
    only for the empty input. *)
Theorem dollarsToCents_twice (cost r : string) :
  dollarsToCents cost = Some r ->
  (r = "" ↔ cost = "") ∧
  (r ≠ "" -> dollarsToCents r = Some (r +:+ "00")).
Proof.
  intros Hrun.
  assert (Hshape : Js.hasChar "." r = false ∧ (r = "" ↔ cost = "")).
  { destruct (dollarsToCents_shape cost)
      as [[-> Hr]|[(D & F & tl & Hyes & _ & HD & HF & Hr)|(Hne & Hno & Hr)]];
      rewrite Hr in Hrun; injection Hrun as <-.
    - done.
    - split; [by rewrite hasChar_app, HD, twoDigits_no_point|].
      split.
      + intros Hempty. apply (f_equal String.length) in Hempty.
        rewrite length_app', twoDigits_length in Hempty. simpl in Hempty. lia.
      + by intros ->.
    - split; [by rewrite hasChar_app, Hno|].
      split; [|done]. intros Hempty. apply (f_equal String.length) in Hempty.
      rewrite length_app' in Hempty. simpl in Hempty. lia. }
  destruct Hshape as [Hno Hiff]. split; [done|]. intros Hne.
  destruct (dollarsToCents_shape r)
    as [[-> _]|[(D & F & tl & Hyes & _)|(_ & _ & Hr)]]; try done. congruence.
Qed.

(** A price in cents put through the function again. *)
Lemma dollarsToCents_twice_witness :
  dollarsToCents "1999" = Some "199900".
Proof.
  destruct (dollarsToCents_twice "19.99" "1999") as [_ Hagain]; [reflexivity|].
  apply Hagain. discriminate.
Defined.

(** X7.  A first character that is not the decimal point, a sign for
    instance, is carried over in front of the answer for the rest. *)
Theorem dollarsToCents_leading (c : ascii) (s : string) :
  c ≠ "."%char ->
  s ≠ "" ->
  dollarsToCents (String c s) = String c <$> dollarsToCents s.
Proof.
  intros Hc Hs.
  assert (Hcb : Ascii.eqb c "." = false) by by apply Ascii.eqb_neq.
  destruct (dollarsToCents_shape s)
    as [[-> _]|[(D & F & tl & Hyes & Hsplit & _ & _ & ->)|(_ & Hno & ->)]];
    [done| |].
  - simpl. rewrite <- app_cons.
    apply dollarsToCents_split with tl; [simpl; by rewrite Hyes, orb_true_r|].
    unfold Js.split in *. cbn [Js.splitParts].
    destruct (Js.splitParts "." s) as [hd tl0]. rewrite Hcb.
    by injection Hsplit as -> ->.
  - simpl. rewrite <- app_cons.
    destruct (dollarsToCents_shape (String c s))
      as [[? _]|[(D & F & tl & Hyes & _)|(_ & _ & ->)]]; [done| |done].
    simpl in Hyes. by rewrite Hcb, Hno in Hyes.
Qed.

(** A negative amount. *)
Lemma dollarsToCents_leading_witness :
  dollarsToCents "-12.5" = String "-" <$> dollarsToCents "12.5".
Proof. apply dollarsToCents_leading; discriminate. Defined.

(** ** What the date pattern lets through *)

Section DateFacts.

Lemma isDate_length d : isDate d = true -> String.length d = 10%nat.
Proof.
  by destruct d as [|? [|? [|? [|? [|? [|? [|? [|? [|? [|? [|? ?]]]]]]]]]]].
Qed.

Lemma concatAll_length dates :
  Forall (fun d => isDate d = true) dates ->
  String.length (concatAll dates) = (10 * length dates)%nat.
Proof.
  induction 1 as [|d dates Hd _ IH]; [done|].
  simpl. rewrite length_app', (isDate_length d Hd), IH. lia.
Qed.

End DateFacts.

(** X9.  The date pattern accepts every string of the shape two digits,
    slash, two digits, slash, four digits, whatever the digits (no month or
    day is checked); what it accepts has a length that is a positive multiple
    of ten, and a string of ten characters is accepted only if it has that
    shape. *)
Theorem datePattern_accepts (s : string) :
  (isDate s = true -> Regexp.test datePattern s = true) ∧
  (Regexp.test datePattern s = true ->
   (∃ n, String.length s = (10 * S n)%nat) ∧
   (String.length s = 10%nat -> isDate s = true)).
Proof.
  split.
  - intros Hs. apply datePattern_test. exists s, [].
    repeat split; [done | constructor | by rewrite app_empty_r].
  - intros (d & dates & Hd & Hall & ->)%datePattern_test.
    pose proof (isDate_length d Hd) as Hlen.
    pose proof (concatAll_length dates Hall) as Hrest.
    rewrite length_app', Hlen, Hrest. split.
    + exists (length dates). lia.
    + intros Hten. destruct dates as [|d' dates]; [|simpl in Hten; lia].
      simpl. by rewrite app_empty_r.
Qed.

(** A date that no calendar holds, and a date with a time after it. *)
Lemma datePattern_accepts_witness :
  Regexp.test datePattern "99/99/0000" = true ∧
  Regexp.test datePattern "12/25/2022 10:00" ≠ true.
Proof.
  split.
  - destruct (datePattern_accepts "99/99/0000") as [Hshape _].
    apply Hshape. reflexivity.
  - intros Hyes.
    destruct (datePattern_accepts "12/25/2022 10:00") as [_ Hlen].
    destruct (Hlen Hyes) as [[n Hn] _]. simpl in Hn. lia.
Defined.

(** ** The update button *)

Section UpdateFacts.

Implicit Types (s t pre suf : string) (c : ascii).

(** The place of the last [c] in a string is determined by the string. *)
Lemma last_split_inj c pre1 suf1 pre2 suf2 :
  Js.hasChar c suf1 = false ->
  Js.hasChar c suf2 = false ->
  pre1 +:+ String c suf1 = pre2 +:+ String c suf2 ->
  pre1 = pre2 ∧ suf1 = suf2.
Proof.
  intros H1 H2 Heq.
  pose proof (lastIndexOf_last c pre1 suf1 H1) as Hl1.
  pose proof (lastIndexOf_last c pre2 suf2 H2) as Hl2.
  rewrite Heq, Hl2 in Hl1.
  pose proof (slice_after c pre1 suf1) as Hs1.
  pose proof (slice_after c pre2 suf2) as Hs2.
  rewrite Heq, <- Hl1, Hs2 in Hs1.
  pose proof (take_app_length pre1 (String c suf1)) as Ht1.
  pose proof (take_app_length pre2 (String c suf2)) as Ht2.
  assert (Hlen : String.length pre1 = String.length pre2)
    by (unfold Js.len in Hl1; lia).
  rewrite Heq, Hlen, Ht2 in Ht1. by split.
Qed.

(** Replacing what follows the last equals sign keeps [?limit=] in. *)
Lemma includes_limit_prefix pre suf x :
  Js.includes "?limit=" (pre +:+ String "=" suf) = true ->
  Js.hasChar "=" suf = false ->
  Js.includes "?limit=" (pre +:+ String "=" x) = true.
Proof.
  intros (a & b & Hab)%includes_iff Hsuf. apply includes_iff.
  destruct (Js.hasChar "=" b) eqn:Hb.
  - destruct (hasChar_last "=" b Hb) as (b1 & b2 & -> & Hb2).
    assert (Hsplit : pre +:+ String "=" suf
                     = (a +:+ "?limit=" +:+ b1) +:+ String "=" b2)
      by by rewrite Hab, !app_assoc'.
    apply last_split_inj in Hsplit as [-> _]; [|done..].
    exists a, (b1 +:+ String "=" x). by rewrite !app_assoc'.
  - assert (Hsplit : pre +:+ String "=" suf = (a +:+ "?limit") +:+ String "=" b)
      by by rewrite Hab, !app_assoc'.
    apply last_split_inj in Hsplit as [-> _]; [|done..].
    exists a, x. by rewrite !app_assoc'.
Qed.

Lemma sliceRange_prefix c pre suf :
  Js.sliceRange (pre +:+ String c suf) 0 (Js.len pre + 1) = pre +:+ String c "".
Proof.
  unfold Js.sliceRange, Js.sliceIndex.
  assert (Hlen : Js.len (pre +:+ String c suf) = Js.len pre + 1 + Js.len suf).
  { rewrite len_app, len_cons. lia. }
  pose proof (len_nonneg pre). pose proof (len_nonneg suf).
  rewrite Hlen. cbn [Z.ltb Z.compare].
  destruct (Z.ltb_spec (Js.len pre + 1) 0); [lia|].
  replace (Z.min 0 (Js.len pre + 1 + Js.len suf)) with 0 by lia.
  replace (Z.min (Js.len pre + 1) (Js.len pre + 1 + Js.len suf))
    with (Js.len pre + 1) by lia.
  cbn [Z.to_nat Js.drop].
  replace (Z.to_nat (Js.len pre + 1 - 0))
    with (String.length (pre +:+ String c ""))
    by (rewrite length_app'; unfold Js.len; simpl; lia).
  replace (pre +:+ String c suf) with ((pre +:+ String c "") +:+ suf)
    by by rewrite app_assoc'.
  apply take_app_length.
Qed.

(** The address the button builds, in the three cases of the test. *)
Lemma update_click_absent limit href :
  Js.includes "?limit=" href = false ->
  update_click limit href = href +:+ "?limit=" +:+ limit.
Proof. intros Hno. unfold update_click, getLimitFromUrl. by rewrite Hno. Qed.

Lemma update_click_present limit pre suf :
  Js.includes "?limit=" (pre +:+ String "=" suf) = true ->
  Js.hasChar "=" suf = false ->
  update_click limit (pre +:+ String "=" suf) =
    if decide (suf = "") then (pre +:+ String "=" suf) +:+ "?limit=" +:+ limit
    else pre +:+ String "=" limit.
Proof.
  intros Hyes Hsuf. unfold update_click, getLimitFromUrl. rewrite Hyes.
  rewrite (lastIndexOf_last "=" pre suf Hsuf), slice_after. cbn [truthy].
  destruct suf as [|c suf]; [done|].
  rewrite decide_False by done. cbn [String.length Nat.eqb negb].
  by rewrite sliceRange_prefix, app_assoc'.
Qed.

(** The address after a click is a part that depends on the old address
    only, an equals sign, and the limit; it holds [?limit=]. *)
Lemma update_click_shape href :
  ∃ pre, ∀ limit,
    update_click limit href = pre +:+ String "=" limit ∧
    Js.includes "?limit=" (pre +:+ String "=" limit) = true.
Proof.
  assert (Happend : ∀ x, href +:+ "?limit=" +:+ x
                         = (href +:+ "?limit") +:+ String "=" x)
    by (intros x; by rewrite !app_assoc').
  assert (Hinc : ∀ x, Js.includes "?limit=" (href +:+ "?limit=" +:+ x) = true)
    by (intros x; apply includes_iff; by exists href, x).
  destruct (Js.includes "?limit=" href) eqn:Hyes.
  - destruct (hasChar_last "=" href) as (pre & suf & -> & Hsuf);
      [by apply (includes_hasChar "?limit=")|].
    destruct (decide (suf = "")) as [->|Hne].
    + exists ((pre +:+ String "=" "") +:+ "?limit"). intros limit.
      rewrite (update_click_present _ pre "" Hyes Hsuf), Happend.
      split; [done|]. rewrite <- Happend. apply Hinc.
    + exists pre. intros limit.
      rewrite (update_click_present _ pre suf Hyes Hsuf).
      rewrite decide_False by done.
      split; [done|]. by apply (includes_limit_prefix pre suf).
  - exists (href +:+ "?limit"). intros limit.
    rewrite (update_click_absent _ _ Hyes), Happend.
    split; [done|]. rewrite <- Happend. apply Hinc.
Qed.

End UpdateFacts.

(** X10.  After a click on the update button with a limit that holds no
    equals sign, [getLimitFromUrl] reads that limit back from the new
    address, whatever the old address was. *)
Theorem update_click_round_trip (limit href : string) :
  Js.hasChar "=" limit = false ->
  getLimitFromUrl (update_click limit href) = VString limit.
Proof.
  intros Hlimit. destruct (update_click_shape href) as [pre Hshape].
  destruct (Hshape limit) as [-> Hinc].
  unfold getLimitFromUrl. rewrite Hinc.
  by rewrite (lastIndexOf_last "=" pre limit Hlimit), slice_after.
Qed.

(** An address with a parameter after the limit. *)
Lemma update_click_round_trip_witness :
  getLimitFromUrl (update_click "50" "https://wevote.example/plans?limit=25&page=2")
    = VString "50".
Proof. apply update_click_round_trip. reflexivity. Defined.

(** X11.  Two clicks in a row give the address of the second click alone,
    provided the limit of the first is not empty and holds no equals sign;
    so clicking twice with the same limit changes nothing the second
    time. *)
Theorem update_click_last_wins (limit1 limit2 href : string) :
  limit1 ≠ "" ->
  Js.hasChar "=" limit1 = false ->
  update_click limit2 (update_click limit1 href) = update_click limit2 href.
Proof.
  intros Hne Hlimit. destruct (update_click_shape href) as [pre Hshape].
  destruct (Hshape limit1) as [-> Hinc]. destruct (Hshape limit2) as [-> _].
  rewrite (update_click_present limit2 pre limit1 Hinc Hlimit).
  by rewrite decide_False.
Qed.

(** From 25 to 50 to 100 rows. *)
Lemma update_click_last_wins_witness :
  update_click "100" (update_click "50" "https://wevote.example/plans?limit=25")
    = update_click "100" "https://wevote.example/plans?limit=25".
Proof. apply update_click_last_wins; [discriminate | reflexivity]. Defined.

(** X12.  What the update button does to the address.  Without [?limit=] it
    appends [?limit=] and the limit, also when the address has a query
    already.  With [?limit=] it replaces what follows the last equals sign of
    the address: the value of the limit when that comes last, the value of
    the last parameter when another one follows, the limit staying as it
    was.  When nothing follows the last equals sign it appends [?limit=] and
    the limit once more. *)
Theorem update_click_cases (limit href : string) :
  (Js.includes "?limit=" href = false ->
   update_click limit href = href +:+ "?limit=" +:+ limit) ∧
  (∀ pre suf,
     href = pre +:+ "=" +:+ suf ->
     Js.hasChar "=" suf = false ->
     Js.includes "?limit=" href = true ->
     (suf ≠ "" -> update_click limit href = pre +:+ "=" +:+ limit) ∧
     (suf = "" -> update_click limit href = href +:+ "?limit=" +:+ limit)) ∧
  (∀ front old rest last,
     href = front +:+ "?limit=" +:+ old +:+ "&" +:+ rest +:+ "=" +:+ last ->
     Js.hasChar "=" last = false ->
     last ≠ "" ->
     update_click limit href =
       front +:+ "?limit=" +:+ old +:+ "&" +:+ rest +:+ "=" +:+ limit).
Proof.
  split; [apply update_click_absent|]. split.
  - intros pre suf -> Hsuf Hyes.
    change ("=" +:+ suf) with (String "=" suf) in *.
    rewrite (update_click_present limit pre suf Hyes Hsuf). split.
    + intros Hne. by rewrite decide_False.
    + intros ->. by rewrite decide_True.
  - intros front old rest last -> Hlast Hne.
    assert (Hsplit : front +:+ "?limit=" +:+ old +:+ "&" +:+ rest +:+ "=" +:+ last
                     = (front +:+ "?limit=" +:+ old +:+ "&" +:+ rest)
                         +:+ String "=" last)
      by by rewrite !app_assoc'.
    rewrite Hsplit, update_click_present; [|
      apply includes_iff; exists front, (old +:+ "&" +:+ rest +:+ "=" +:+ last);
      by rewrite !app_assoc' | done].
    rewrite decide_False by done. by rewrite !app_assoc'.
Qed.

(** The three kinds of address. *)
Lemma update_click_cases_witness :
  update_click "50" "https://wevote.example/plans?tab=all"
    = "https://wevote.example/plans?tab=all?limit=50" ∧
  update_click "50" "https://wevote.example/plans?limit="
    = "https://wevote.example/plans?limit=?limit=50" ∧
  update_click "50" "https://wevote.example/plans?limit=25&page=2"
    = "https://wevote.example/plans?limit=25&page=50".
Proof.
  split; [|split].
  - destruct (update_click_cases "50" "https://wevote.example/plans?tab=all")
      as [Habsent _].
    apply Habsent. reflexivity.
  - destruct (update_click_cases "50" "https://wevote.example/plans?limit=")
      as (_ & Hlast & _).
    destruct (Hlast "https://wevote.example/plans?limit" "") as [_ Hempty];
      [reflexivity..|].
    by apply Hempty.
  - destruct (update_click_cases "50"
                "https://wevote.example/plans?limit=25&page=2") as (_ & _ & Hnext).
    apply (Hnext "https://wevote.example/plans" "25" "page" "2");
      [reflexivity | reflexivity | discriminate].
Defined.

(** ** More on the roll-up *)

Section RollupMore.

Implicit Types (row : Row) (rows : list Row) (hashmap : gmap string bool).

(** Running the loop on its own result changes nothing more. *)
Lemma rollupRows_idempotent checked hashmap rows :
  rollupRows checked hashmap (rollupRows checked hashmap rows).2 =
  rollupRows checked hashmap rows.
Proof.
  revert hashmap. induction rows as [|row rows IH]; intros hashmap; [done|].
  destruct (rowKey row) as [key|] eqn:Hkey.
  - rewrite (rollupRows_cons _ _ row rows key Hkey).
    destruct checked; [case_bool_decide as Hdom|]; cbn [snd].
    + rewrite (rollupRows_cons _ _ (css_display "none" row) _ key Hkey).
      rewrite bool_decide_eq_true_2 by done. by rewrite IH.
    + rewrite (rollupRows_cons _ _ row _ key Hkey).
      rewrite bool_decide_eq_false_2 by done. by rewrite IH.
    + rewrite (rollupRows_cons _ _ (css_display "" row) _ key Hkey).
      by rewrite IH.
  - cbn [rollupRows]. rewrite Hkey. cbn [snd rollupRows]. by rewrite Hkey.
Qed.

(** The loop stops at the first row without its two cells. *)
Lemma rollupRows_first_bad checked hashmap good bad rest :
  Forall hasKeyCells good ->
  rowKey bad = None ->
  ∃ hashmap',
    rollupRows checked hashmap (good ++ bad :: rest) =
      (Thrown, (rollupRows checked hashmap good).2 ++ bad :: rest) ∧
    rollupRows checked hashmap' (bad :: rest) = (Thrown, bad :: rest).
Proof.
  intros Hgood Hbad. revert hashmap.
  induction Hgood as [|row good [key Hkey] _ IH]; intros hashmap.
  - exists hashmap. cbn [app rollupRows]. by rewrite Hbad.
  - rewrite <- app_comm_cons.
    rewrite !(rollupRows_cons _ _ row _ key Hkey).
    destruct checked; [case_bool_decide|]; cbn [snd];
      match goal with |- context [rollupRows ?c ?m (good ++ _)] =>
        destruct (IH m) as (m' & -> & Hm') end; by exists m'.
Qed.

(** The rows the checked loop leaves shown have keys that differ from one
    another and from the keys in the map. *)
Lemma rollupRows_checked_shown_keys hashmap rows :
  Forall hasKeyCells rows ->
  NoDup (rowKeys (filter (fun row => visible row = true)
                    (rollupRows true hashmap rows).2)) ∧
  ∀ key,
    key ∈ rowKeys (filter (fun row => visible row = true)
                     (rollupRows true hashmap rows).2) ->
    key ∉ dom hashmap.
Proof.
  intros Hall. revert hashmap.
  induction Hall as [|row rows [key Hkey] _ IH]; intros hashmap.
  - split; [constructor | by intros key ?%elem_of_nil].
  - rewrite (rollupRows_cons _ _ row rows key Hkey).
    case_bool_decide as Hdom; cbn [snd].
    + rewrite filter_cons_False by by rewrite visible_hidden. apply IH.
    + destruct (IH (<[key := true]> hashmap)) as [Hnodup Hfresh].
      assert (Hsub : ∀ k,
        k ∈ rowKeys (filter (fun row => visible row = true)
                       (rollupRows true (<[key := true]> hashmap) rows).2) ->
        k ≠ key ∧ k ∉ dom hashmap).
      { intros k Hk. specialize (Hfresh k Hk). rewrite dom_insert_L in Hfresh.
        split; [intros -> | intros ?]; apply Hfresh;
          apply elem_of_union; [left; by apply elem_of_singleton | by right]. }
      destruct (decide (visible row = true)) as [Hvis|Hvis].
      * rewrite filter_cons_True by done. rewrite (rowKeys_cons _ _ _ Hkey).
        split.
        -- constructor; [|done]. intros Hin. by destruct (Hsub key Hin).
        -- intros k [->|Hk]%elem_of_cons; [done|]. by destruct (Hsub k Hk).
      * rewrite filter_cons_False by done. split; [done|].
        intros k Hk. by destruct (Hsub k Hk).
Qed.

(** Checked, the loop shows no row; unchecked, it hides none. *)
Lemma rollupRows_monotone checked hashmap rows :
  Forall2 (fun row row' =>
             (checked = true -> visible row' = true -> visible row = true) ∧
             (checked = false -> visible row = true -> visible row' = true))
    rows (rollupRows checked hashmap rows).2.
Proof.
  revert hashmap. induction rows as [|row rows IH]; intros hashmap;
    [constructor|].
  destruct (rowKey row) as [key|] eqn:Hkey.
  - rewrite (rollupRows_cons _ _ row rows key Hkey).
    destruct checked; [case_bool_decide|]; cbn [snd]; constructor;
      try apply IH; done.
  - cbn [rollupRows]. rewrite Hkey. cbn [snd].
    apply Forall2_same_length_lookup_2; [done|].
    intros i x y Hx Hy. assert (x = y) as -> by congruence. done.
Qed.

End RollupMore.

(** X13.  Running the handler again with the box in the same state changes
    nothing: the second run leaves the table of the first and ends as the
    first did, whatever the table. *)
Theorem rollup_idempotent (checked : bool) (table : list Row) :
  rollupOlderVersions_change checked
    (rollupOlderVersions_change checked table).2 =
  rollupOlderVersions_change checked table.
Proof.
  destruct table as [|header rows]; [done|].
  rewrite !rollupOlderVersions_change_cons. cbn [snd].
  rewrite rollupOlderVersions_change_cons.
  by rewrite rollupRows_idempotent.
Qed.

(** X14.  The handler runs to its end exactly when every data row has its
    coupon and type cells.  At the first data row that lacks one it raises:
    the rows before that one are treated as in a table that ends there, that
    row and the rows after it keep their display. *)
Theorem rollup_raises_at_first_short_row (checked : bool) (table : list Row) :
  ((rollupOlderVersions_change checked table).1 = Returned tt ↔
   Forall hasKeyCells (dataRows table)) ∧
  (∀ header good bad rest,
     table = header :: good ++ bad :: rest ->
     Forall hasKeyCells good ->
     rowKey bad = None ->
     rollupOlderVersions_change checked table =
       (Thrown,
        (rollupOlderVersions_change checked (header :: good)).2 ++ bad :: rest)).
Proof.
  assert (Hfirst : ∀ header good bad rest,
    Forall hasKeyCells good -> rowKey bad = None ->
    rollupOlderVersions_change checked (header :: good ++ bad :: rest) =
      (Thrown,
       (rollupOlderVersions_change checked (header :: good)).2 ++ bad :: rest)).
  { intros header good bad rest Hgood Hbad.
    rewrite !rollupOlderVersions_change_cons. cbn [snd].
    destruct (rollupRows_first_bad checked ∅ good bad rest Hgood Hbad)
      as (m' & -> & _). done. }
  split; [|by intros header good bad rest ->; apply Hfirst].
  split.
  - intros Hrun. destruct table as [|header rows]; [constructor|].
    cbn [dataRows tail].
    destruct (decide (Forall hasKeyCells rows)) as [?|Hnot]; [done|].
    exfalso. apply not_Forall_Exists in Hnot; [|apply _].
    apply Exists_exists in Hnot as (bad & Hin & Hbad).
    assert (∃ good bad' rest, rows = good ++ bad' :: rest ∧
              Forall hasKeyCells good ∧ rowKey bad' = None)
      as (good & bad' & rest & -> & Hgood & Hbad').
    { clear Hrun. induction rows as [|row rows IH]; [by apply elem_of_nil in Hin|].
      destruct (rowKey row) as [key|] eqn:Hkey.
      - apply elem_of_cons in Hin as [->|Hin].
        { exfalso. apply Hbad. by exists key. }
        destruct (IH Hin) as (good & bad' & rest & -> & Hgood & Hbad').
        exists (row :: good), bad', rest. repeat split; [|done].
        constructor; [by exists key | done].
      - by exists [], row, rows. }
    by rewrite (Hfirst header good bad' rest Hgood Hbad') in Hrun.
  - intros Hall. destruct table as [|header rows]; [done|].
    rewrite rollupOlderVersions_change_cons. cbn [fst].
    by apply rollupRows_returns.
Qed.

(** A table whose second data row has one cell only. *)
Lemma rollup_raises_at_first_short_row_witness :
  rollupOlderVersions_change true
    [mkRow ["id"; "coupon"; "type"] ""; mkRow ["2"; "A"; "1"] "";
     mkRow ["no plans"] ""; mkRow ["1"; "A"; "1"] ""] =
  (Thrown,
   [mkRow ["id"; "coupon"; "type"] ""; mkRow ["2"; "A"; "1"] "";
    mkRow ["no plans"] ""; mkRow ["1"; "A"; "1"] ""]).
Proof.
  destruct (rollup_raises_at_first_short_row true
    [mkRow ["id"; "coupon"; "type"] ""; mkRow ["2"; "A"; "1"] "";
     mkRow ["no plans"] ""; mkRow ["1"; "A"; "1"] ""]) as [_ Hfirst].
  rewrite (Hfirst (mkRow ["id"; "coupon"; "type"] "") [mkRow ["2"; "A"; "1"] ""]
             (mkRow ["no plans"] "") [mkRow ["1"; "A"; "1"] ""]);
    [reflexivity | reflexivity | by repeat constructor; eexists | reflexivity].
Defined.

(** X15.  After a run with the box checked, no two data rows that are shown
    have the same key, whatever was shown or hidden before. *)
Theorem rollup_shown_keys_distinct (table : list Row) :
  Forall hasKeyCells (dataRows table) ->
  NoDup (rowKeys (filter (fun row => visible row = true)
                    (dataRows (rollupOlderVersions_change true table).2))).
Proof.
  intros Hall. destruct table as [|header rows]; [constructor|].
  rewrite rollupOlderVersions_change_cons. cbn [snd dataRows tail] in *.
  by apply rollupRows_checked_shown_keys.
Qed.

(** The example table, one of whose rows is hidden from the start. *)
Lemma rollup_shown_keys_distinct_witness :
  NoDup (rowKeys (filter (fun row => visible row = true)
    (dataRows (rollupOlderVersions_change true
       [mkRow ["id"; "coupon"; "type"] ""; mkRow ["3"; "A"; "1"] "none";
        mkRow ["2"; "A"; "1"] ""; mkRow ["1"; "B"; "1"] ""]).2))).
Proof.
  apply rollup_shown_keys_distinct. repeat constructor; by eexists.
Defined.

(** X16.  With the box checked the handler shows no row that was hidden, and
    with the box unchecked it hides no row that was shown; this holds of
    every row of every table, also when the handler raises. *)
Theorem rollup_never_shows_never_hides
    (checked : bool) (table : list Row) (i : nat) (row row' : Row) :
  table !! i = Some row ->
  (rollupOlderVersions_change checked table).2 !! i = Some row' ->
  (checked = true -> visible row' = true -> visible row = true) ∧
  (checked = false -> visible row = true -> visible row' = true).
Proof.
  destruct table as [|header rows]; [done|].
  rewrite rollupOlderVersions_change_cons. cbn [snd].
  destruct i as [|i]; simpl.
  - by intros [= ->] [= ->].
  - intros Hrow Hrow'.
    pose proof (rollupRows_monotone checked ∅ rows) as Hmono.
    by apply (Forall2_lookup_lr _ _ _ i row row' Hmono).
Qed.

(** A first occurrence that was hidden before stays hidden when the box is
    checked. *)
Lemma rollup_never_shows_never_hides_witness :
  (rollupOlderVersions_change true
     [mkRow ["id"; "coupon"; "type"] ""; mkRow ["3"; "A"; "1"] "none";
      mkRow ["2"; "A"; "1"] ""]).2 !! 1%nat
    = Some (mkRow ["3"; "A"; "1"] "none") ∧
  (visible (mkRow ["2"; "A"; "1"] "") = true ->
   visible (mkRow ["2"; "A"; "1"] "") = true).
Proof.
  split; [reflexivity|].
  apply (rollup_never_shows_never_hides false
           [mkRow ["id"; "coupon"; "type"] ""; mkRow ["3"; "A"; "1"] "none";
            mkRow ["2"; "A"; "1"] ""] 2%nat); reflexivity.
Defined.

(** ** Filling the dialog and saving *)

Section FillFacts.

Lemma value_setInitialValues activePlan p o :
  value (setInitialValues activePlan p) o =
    match o with
    | idfld => ActivePlan.id activePlan
    | couponCode => ActivePlan.coupon_code activePlan
    | planTypeEnum => ActivePlan.plan_type_enum activePlan
    | hiddenPlanComment => ActivePlan.hidden_plan_comment activePlan
    | couponAppliedMessage => ActivePlan.coupon_applied_message activePlan
    | listPriceMonthlyCredit => ActivePlan.list_price_monthly_credit activePlan
    | discountedPriceMonthlyCredit =>
        ActivePlan.discounted_price_monthly_credit activePlan
    | redemptions => ActivePlan.redemptions activePlan
    | featuresProvidedBitmap => ActivePlan.features_provided_bitmap activePlan
    | planCreatedAt => ActivePlan.plan_created_at activePlan
    | couponExpiresDate => value p couponExpiresDate
    end.
Proof. by destruct o. Qed.

End FillFacts.

(** X17.  [setInitialValues] fills ten fields from the active plan and
    leaves the expiration date, the flags, the tips and the requests as they
    were.  A pass right after it, with a coupon code of valid length and an
    empty expiration date, sends the coupon code, plan type, messages and
    bitmap of the active plan, and each price of the active plan through
    [dollarsToCents]: a price of the active plan that is not empty and holds
    no decimal point is sent with [00] appended.  The id, the redemptions and
    the creation date are not part of the request. *)
Theorem setInitialValues_then_save
    (momentFormat : string -> string) (activePlan : ActivePlan.t) (p : Page) :
  (value (setInitialValues activePlan p) couponExpiresDate
     = value p couponExpiresDate ∧
   (∀ o, hasError (setInitialValues activePlan p) o = hasError p o) ∧
   tipsText (setInitialValues activePlan p) = tipsText p ∧
   requests (setInitialValues activePlan p) = requests p) ∧
  (3 <= Js.len (ActivePlan.coupon_code activePlan) <= 128 ->
   value p couponExpiresDate = "" ->
   ∃ listPrice discountedPrice,
     dollarsToCents (ActivePlan.list_price_monthly_credit activePlan)
       = Some listPrice ∧
     dollarsToCents (ActivePlan.discounted_price_monthly_credit activePlan)
       = Some discountedPrice ∧
     (saveNewPlan momentFormat (setInitialValues activePlan p)).1
       = Returned true ∧
     requests (saveNewPlan momentFormat (setInitialValues activePlan p)).2 =
       requests p ++
       [GetJSON (origin p +:+ "/apis/v1/createNewPlan")
          (NewPlanData.make
             (ActivePlan.coupon_code activePlan)
             (ActivePlan.plan_type_enum activePlan)
             (ActivePlan.coupon_applied_message activePlan)
             (ActivePlan.hidden_plan_comment activePlan)
             listPrice discountedPrice
             (ActivePlan.features_provided_bitmap activePlan) "")] ∧
     (ActivePlan.list_price_monthly_credit activePlan ≠ "" ->
      Js.hasChar "." (ActivePlan.list_price_monthly_credit activePlan) = false ->
      listPrice = ActivePlan.list_price_monthly_credit activePlan +:+ "00") ∧
     (ActivePlan.discounted_price_monthly_credit activePlan ≠ "" ->
      Js.hasChar "." (ActivePlan.discounted_price_monthly_credit activePlan)
        = false ->
      discountedPrice =
        ActivePlan.discounted_price_monthly_credit activePlan +:+ "00")).
Proof.
  split; [by repeat split|].
  intros Hlen Hdate.
  destruct (saveNewPlan_valid momentFormat (setInitialValues activePlan p) "")
    as (listPrice & discountedPrice & Hl & Hd & Hrun).
  { apply checkLength_fst. by rewrite value_setInitialValues. }
  { left. by rewrite value_setInitialValues, Hdate. }
  rewrite !value_setInitialValues in Hl, Hd, Hrun.
  exists listPrice, discountedPrice. rewrite Hrun.
  repeat split; try done.
  - intros Hne Hno.
    destruct (dollarsToCents_shape (ActivePlan.list_price_monthly_credit activePlan))
      as [[? _]|[(? & ? & ? & Hyes & _)|(_ & _ & Hr)]]; [done|congruence|congruence].
  - intros Hne Hno.
    destruct (dollarsToCents_shape
                (ActivePlan.discounted_price_monthly_credit activePlan))
      as [[? _]|[(? & ? & ? & Hyes & _)|(_ & _ & Hr)]]; [done|congruence|congruence].
Qed.

(** A plan stored with prices in cents, opened and saved as a new plan. *)
Lemma setInitialValues_then_save_witness :
  requests
    (saveNewPlan (fun s => s)
       (setInitialValues
          (ActivePlan.make "7" "SAVE10" "PROFESSIONAL_MONTHLY" "" "" "1999" "950"
             "3" "0" "12/01/2022")
          (examplePage "" "" "" ""))).2 =
  [GetJSON "https://api.example.org/apis/v1/createNewPlan"
     (NewPlanData.make "SAVE10" "PROFESSIONAL_MONTHLY" "" "" "199900" "95000"
        "0" "")].
Proof.
  destruct (setInitialValues_then_save (fun s => s)
              (ActivePlan.make "7" "SAVE10" "PROFESSIONAL_MONTHLY" "" "" "1999"
                 "950" "3" "0" "12/01/2022")
              (examplePage "" "" "" "")) as [_ Hsave].
  destruct Hsave as (listPrice & discountedPrice & _ & _ & _ & Hreq & Hl & Hd);
    [by vm_compute | reflexivity |].
  rewrite Hreq, Hl, Hd; [reflexivity | discriminate | reflexivity
                        | discriminate | reflexivity].
Defined.

(** ** Saving twice *)

(** X8.  Nothing keeps a second pass from sending again: since a pass
    writes no field, a pass after a valid pass is valid as well and issues
    the very same request a second time. *)
Theorem saveNewPlan_again (momentFormat : string -> string) (p : Page) :
  (saveNewPlan momentFormat p).1 = Returned true ->
  ∃ request,
    requests (saveNewPlan momentFormat p).2 = requests p ++ [request] ∧
    (saveNewPlan momentFormat (saveNewPlan momentFormat p).2).1
      = Returned true ∧
    requests (saveNewPlan momentFormat (saveNewPlan momentFormat p).2).2
      = requests p ++ [request; request].
Proof.
  destruct (saveNewPlan_cases momentFormat p)
    as [[Hlen ->]|[(Hlen & Hdate & Hre & ->)|(Hlen & e & lp & dp & Hdate & Hl & Hd & ->)]];
    cbn [fst snd]; try done.
  intros _. eexists. split; [done|].
  set (p1 := getJSON _ _ _).
  destruct (saveNewPlan_valid momentFormat p1 e) as (lp' & dp' & Hl' & Hd' & ->).
  { apply checkLength_fst. apply checkLength_fst in Hlen. exact Hlen. }
  { change (value p1 couponExpiresDate) with (value p couponExpiresDate).
    destruct Hdate as [[Hempty ->]|(Hfull & Hok & ->)].
    - left. by rewrite Hempty.
    - right. rewrite len_empty_iff, checkRegexp_fst. by repeat split. }
  change (value p1 listPriceMonthlyCredit)
    with (value p listPriceMonthlyCredit) in Hl'.
  change (value p1 discountedPriceMonthlyCredit)
    with (value p discountedPriceMonthlyCredit) in Hd'.
  assert (lp' = lp) as -> by congruence. assert (dp' = dp) as -> by congruence.
  split; [done|]. cbn. by rewrite <- app_assoc.
Qed.

(** Two clicks on the save button. *)
Lemma saveNewPlan_again_witness :
  requests
    (saveNewPlan (fun s => s)
       (saveNewPlan (fun s => s) (examplePage "SAVE10" "19.99" "9.5" "")).2).2 =
  [GetJSON "https://api.example.org/apis/v1/createNewPlan"
     (NewPlanData.make "SAVE10" "" "" "" "1999" "950" "" "");
   GetJSON "https://api.example.org/apis/v1/createNewPlan"
     (NewPlanData.make "SAVE10" "" "" "" "1999" "950" "" "")].
Proof.
  destruct (saveNewPlan_again (fun s => s)
              (examplePage "SAVE10" "19.99" "9.5" ""))
    as (request & Hfirst & _ & Hsecond); [reflexivity|].
  rewrite Hsecond.
  change (requests (saveNewPlan (fun s => s)
                      (examplePage "SAVE10" "19.99" "9.5" "")).2)
    with ([] ++ [GetJSON "https://api.example.org/apis/v1/createNewPlan"
                   (NewPlanData.make "SAVE10" "" "" "" "1999" "950" "" "")])
    in Hfirst.
  apply app_inv_head in Hfirst. injection Hfirst as <-. reflexivity.
Defined.
